(** * Chipset history comparator (ChipsetMultipleFinal.py)

    A shallow embedding of [load_data], [add_serial_number],
    [compare_chipsets] and one run of [main]: data frames are a column list
    plus keyed rows, the Python dictionaries [data_dict] and
    [chipset_history] are finite maps keyed by the year string, identifier
    sets are finite sets, and the exceptions of the subscripts and of
    [with st:] are an error monad.  A second reading of [compare_chipsets]
    keeps the iteration order of Python's sets and dictionaries, to show
    that the result does not depend on it. *)

From Stdlib Require Import Ascii.
From stdpp Require Import gmap strings list sorting.

Local Open Scope string_scope.
Local Open Scope list_scope.

(** ** Values, cells and exceptions *)

(** A non-null cell content: text, or an integer (the ordinals written by
    [add_serial_number]). *)
Inductive value :=
  | Str (s : string)
  | Int (z : Z).

#[global] Instance value_eq_dec : EqDecision value.
Proof. solve_decision. Defined.

Definition value_to_sum (v : value) : string + Z :=
  match v with Str s => inl s | Int z => inr z end.

Definition value_of_sum (x : string + Z) : value :=
  match x with inl s => Str s | inr z => Int z end.

#[global] Instance value_countable : Countable value.
Proof.
  refine (inj_countable' value_to_sum value_of_sum _).
  intros []; reflexivity.
Defined.

(** A cell of a frame: [None] is pandas' NaN. *)
Abbreviation cell := (option value).

(** [TypeError] is what [with st:] raises on the module [st], which is no
    context manager ([AttributeError] before Python 3.11). *)
Inductive exn :=
  | KeyError (k : string)
  | IndexError
  | TypeError.

Inductive result (A : Type) :=
  | Ok (a : A)
  | Raise (e : exn).
Arguments Ok {A} a.
Arguments Raise {A} e.

#[global] Instance result_ret : MRet result := λ A a, Ok a.
#[global] Instance result_bind : MBind result := λ A B f m,
  match m with
  | Ok a => f a
  | Raise e => Raise e
  end.

(** [for x in l: body] threading the loop state. *)
Fixpoint for_each {A St : Type} (l : list A) (body : A → St → result St)
    (s : St) : result St :=
  match l with
  | [] => Ok s
  | x :: l' => s' ← body x s; for_each l' body s'
  end.

(** A list comprehension [[f x for x in l]] whose element expression may raise. *)
Fixpoint map_result {A B : Type} (f : A → result B) (l : list A) : result (list B) :=
  match l with
  | [] => Ok []
  | x :: l' => y ← f x; ys ← map_result f l'; Ok (y :: ys)
  end.

(** A list comprehension [[x for x in l if p x]] whose condition may raise. *)
Fixpoint filter_result {A : Type} (p : A → result bool) (l : list A) : result (list A) :=
  match l with
  | [] => Ok []
  | x :: l' =>
      b ← p x; xs ← filter_result p l'; Ok (if b : bool then x :: xs else xs)
  end.

(** ** Dictionaries, records and frames *)

Definition CHIPSET_SP : string := "Chipset SP".
Definition SR_NO : string := "Sr. No".

(** [m[k]] on a dictionary. *)
Definition dict_get {V : Type} (m : gmap string V) (k : string) : result V :=
  match m !! k with
  | Some v => Ok v
  | None => Raise (KeyError k)
  end.

(** [l[i]] on a list, for a non-negative index. *)
Definition list_get {A : Type} (l : list A) (i : nat) : result A :=
  match l !! i with
  | Some x => Ok x
  | None => Raise IndexError
  end.

(** One element of [to_dict('records')]: a dictionary in column order. *)
Abbreviation record := (list (string * cell)).

Fixpoint record_lookup (k : string) (r : record) : option cell :=
  match r with
  | [] => None
  | (k', c) :: r' => if decide (k' = k) then Some c else record_lookup k r'
  end.

(** [entry[k]] on a record. *)
Definition record_get (r : record) (k : string) : result cell :=
  match record_lookup k r with
  | Some c => Ok c
  | None => Raise (KeyError k)
  end.

(** A frame: its column labels in order, and its rows keyed by column
    label.  A label without a binding in a row reads as NaN.  The labels
    of a frame are taken to be distinct, as [pd.read_csv] makes them
    (a repeated header [x] is read as [x], [x.1], ...): on a frame with a
    label twice, [df[c]] is a frame and no series, which [getitem] does
    not describe. *)
Record DataFrame := mkDataFrame {
  columns : list string;
  rows : list (gmap string cell)
}.

#[global] Instance DataFrame_eq_dec : EqDecision DataFrame.
Proof. solve_decision. Defined.

Definition cell_of (c : string) (row : gmap string cell) : cell :=
  match row !! c with
  | Some x => x
  | None => None
  end.

(** [df[c]]: the column as a series, [KeyError] when there is no such column. *)
Definition getitem (df : DataFrame) (c : string) : result (list cell) :=
  if decide (c ∈ columns df) then Ok (cell_of c <$> rows df)
  else Raise (KeyError c).

(** [series.dropna()] *)
Definition dropna (s : list cell) : list value := omap id s.

(** [series.unique()]: distinct values in order of first occurrence. *)
Fixpoint unique (l : list value) : list value :=
  match l with
  | [] => []
  | x :: l' => x :: filter (λ y, y ≠ x) (unique l')
  end.

(** [x in s] for a cell [x]: NaN is a member of no identifier set. *)
Definition cell_in (x : cell) (s : gset value) : bool :=
  match x with
  | Some v => bool_decide (v ∈ s)
  | None => false
  end.

(** [series.isin(s)]: the boolean mask. *)
Definition isin (s : list cell) (vs : gset value) : list bool :=
  (λ x, cell_in x vs) <$> s.

(** [df[mask]]: the rows whose mask entry is true. *)
Fixpoint select_rows {A : Type} (l : list A) (mask : list bool) : list A :=
  match l, mask with
  | x :: l', b :: mask' =>
      if b then x :: select_rows l' mask' else select_rows l' mask'
  | _, _ => []
  end.

Definition mask_getitem (df : DataFrame) (mask : list bool) : DataFrame :=
  {| columns := columns df; rows := select_rows (rows df) mask |}.

Definition row_to_record (cols : list string) (row : gmap string cell) : record :=
  (λ c, (c, cell_of c row)) <$> cols.

(** [df.to_dict('records')] *)
Definition to_dict_records (df : DataFrame) : list record :=
  row_to_record (columns df) <$> rows df.

(** Labels in order of first appearance. *)
Fixpoint ordered_union (seen : list string) (ks : list string) : list string :=
  match ks with
  | [] => []
  | k :: ks' =>
      if decide (k ∈ seen) then ordered_union seen ks'
      else k :: ordered_union (k :: seen) ks'
  end.

(** [pd.DataFrame(records)]: the columns are the keys of the records in
    order of first appearance; a key a record lacks reads as NaN.  The
    column types pandas infers are not part of a frame here: an integer
    that shares its column with a NaN is stored by pandas as the float of
    the same number, and is kept as it is by this definition.  Text and
    NaN are stored as they are by both. *)
Definition DataFrame_of_records (rs : list record) : DataFrame :=
  {| columns := ordered_union [] (rs ≫= fmap fst);
     rows := list_to_map <$> rs |}.

(** [df.drop(columns=[c])] *)
Definition drop_column (c : string) (df : DataFrame) : DataFrame :=
  {| columns := filter (λ k, k ≠ c) (columns df);
     rows := delete c <$> rows df |}.

(** [df.insert(0, c, vals)] *)
Definition insert_first (c : string) (vals : list value) (df : DataFrame) : DataFrame :=
  {| columns := c :: columns df;
     rows := zip_with (λ row v, <[c := Some v]> row) (rows df) vals |}.

(** [range(a, b)] as ordinals. *)
Definition range_values (a len : nat) : list value :=
  (λ i, Int (Z.of_nat i)) <$> seq a len.

Definition add_serial_number (df : DataFrame) : DataFrame :=
  let df := if decide (SR_NO ∈ columns df) then drop_column SR_NO df else df in
  insert_first SR_NO (range_values 1 (length (rows df))) df.

(** ** The comparator *)

(** [sorted(data_dict.keys())] *)
Definition sorted_keys {V : Type} (m : gmap string V) : list string :=
  merge_sort String.le (map_to_list m).*1.

Abbreviation history := (gmap string (gset value)).

Section compare.
Variable data_dict : gmap string DataFrame.

(** Lines 29-31. *)
Definition history_step (year : string) (chipset_history : history) : result history :=
  df ← dict_get data_dict year;
  col ← getitem df CHIPSET_SP;
  let current_chipsets : gset value := list_to_set (unique (dropna col)) in
  Ok (<[year := current_chipsets]> chipset_history).

Definition build_history (year_list : list string) : result history :=
  for_each year_list history_step ∅.

(** [data_dict[year][data_dict[year]['Chipset SP'].isin(s)].to_dict('records')] *)
Definition records_isin (year : string) (s : gset value) : result (list record) :=
  df ← dict_get data_dict year;
  df' ← dict_get data_dict year;
  col ← getitem df' CHIPSET_SP;
  Ok (to_dict_records (mask_getitem df (isin col s))).

Variable chipset_history : history.

(** Lines 35-38. *)
Definition added_step (year : string) (st : gset value * list record)
    : result (gset value * list record) :=
  let '(all_previous_chipsets, added) := st in
  current ← dict_get chipset_history year;
  let added_chipsets := current ∖ all_previous_chipsets in
  current' ← dict_get chipset_history year;
  let all_previous_chipsets := all_previous_chipsets ∪ current' in
  recs ← records_isin year added_chipsets;
  Ok (all_previous_chipsets, added ++ recs).

Definition added_loop (year_list : list string) : result (gset value * list record) :=
  for_each year_list added_step (∅, []).

Variable year_list : list string.

(** Lines 42-47. *)
Definition removed_step (i : nat) (st : gset value * list record)
    : result (gset value * list record) :=
  let '(removed_chipsets_set, removed) := st in
  prev_year ← list_get year_list i;
  later ← map_result (dict_get chipset_history) (drop (i + 1) year_list);
  let later_years_chipsets : gset value := ⋃ later in
  current ← dict_get chipset_history prev_year;
  let removed_chipsets := current ∖ later_years_chipsets in
  recs ← records_isin prev_year removed_chipsets;
  Ok (removed_chipsets_set ∪ removed_chipsets, removed ++ recs).

Definition removed_loop : result (gset value * list record) :=
  for_each (seq 0 (length year_list - 1)) removed_step (∅, []).

(** Lines 51-55. *)
Definition reappeared_step (year : nat) (st : gset value * list record)
    : result (gset value * list record) :=
  let '(reappeared_chipsets_set, reappeared) := st in
  older_year ← list_get year_list (year - 2);
  prev_year ← list_get year_list (year - 1);
  curr_year ← list_get year_list year;
  older ← dict_get chipset_history older_year;
  prev ← dict_get chipset_history prev_year;
  curr ← dict_get chipset_history curr_year;
  let reappeared_chipsets := (older ∖ prev) ∩ curr in
  recs ← records_isin curr_year reappeared_chipsets;
  Ok (reappeared_chipsets_set ∪ reappeared_chipsets, reappeared ++ recs).

Definition reappeared_loop : result (gset value * list record) :=
  for_each (seq 2 (length year_list - 2)) reappeared_step (∅, []).

(** Lines 57-58. *)
Definition reconcile (reappeared_chipsets_set : gset value) (removed : list record)
    : result (list record) :=
  removed ← filter_result
    (λ entry, x ← record_get entry CHIPSET_SP;
              Ok (negb (cell_in x reappeared_chipsets_set))) removed;
  filter_result
    (λ entry, x ← record_get entry CHIPSET_SP;
              first_year ← list_get year_list 0;
              first ← dict_get chipset_history first_year;
              Ok (cell_in x first)) removed.
End compare.

(** Lines 24-58: the three record lists before they are made into frames. *)
Definition compare_records (data_dict : gmap string DataFrame)
    : result (list record * list record * list record) :=
  let year_list := sorted_keys data_dict in
  chipset_history ← build_history data_dict year_list;
  st_added ← added_loop data_dict chipset_history year_list;
  st_removed ← removed_loop data_dict chipset_history year_list;
  st_reappeared ← reappeared_loop data_dict chipset_history year_list;
  removed ← reconcile chipset_history year_list st_reappeared.1 st_removed.2;
  Ok (st_added.2, removed, st_reappeared.2).

(** Line 60. *)
Definition compare_chipsets (data_dict : gmap string DataFrame)
    : result (DataFrame * DataFrame * DataFrame) :=
  out ← compare_records data_dict;
  let '(added, removed, reappeared) := out in
  Ok (add_serial_number (DataFrame_of_records added),
      add_serial_number (DataFrame_of_records removed),
      add_serial_number (DataFrame_of_records reappeared)).

(** Lines 74-76 and 101-128 of [main], for the mapping [main] has built
    from the uploads and the manual entries: with no year [st.error] is
    shown; with exactly one year line 103 sets [cols = [st]] and line 106
    enters [with st:], which raises before anything is compared; with more
    years the comparator is called. *)
Inductive main_outcome :=
  | Displayed (added removed reappeared : DataFrame)
  | UploadError (msg : string)
  | Crashed (e : exn).

Definition main_compare (data_dict : gmap string DataFrame) : main_outcome :=
  let years := sorted_keys data_dict in
  if decide (0 < length years) then
    if decide (1 < length years) then
      match compare_chipsets data_dict with
      | Ok (added, removed, reappeared) => Displayed added removed reappeared
      | Raise e => Crashed e
      end
    else Crashed TypeError
  else UploadError "Please upload at least one CSV file.".

(** ** The comparator over hashed sets and an insertion-ordered dictionary *)

(** A second reading of lines 22-60, which keeps what the first one
    forgets.  A Python [set] is held as the list of its elements in
    iteration order; that order is fixed, each time a set is built, by the
    hashes of the elements, which differ from one process to the next:
    [set_order] stands for it.  [data_dict] is the list of its items in
    insertion order, with [data_dict.keys()] in that order.  The frames,
    [unique], [isin] and [to_dict] are those of the first reading. *)

Definition result_map {A B : Type} (f : A → B) (r : result A) : result B :=
  match r with
  | Ok a => Ok (f a)
  | Raise e => Raise e
  end.

Module Hashed.
Section order.
Variable set_order : list value → list value.

(** [set(l)] *)
Definition set_of (l : list value) : list value :=
  set_order (remove_dups l).

(** [a - b] *)
Definition set_difference (a b : list value) : list value :=
  set_order (filter (λ x, x ∉ b) a).

(** [a.update(b)] *)
Definition set_update (a b : list value) : list value :=
  set_order (remove_dups (a ++ b)).

(** [set().union( *ls)] *)
Definition set_union_all (ls : list (list value)) : list value :=
  set_order (remove_dups (concat ls)).

(** [a & b] *)
Definition set_intersection (a b : list value) : list value :=
  set_order (filter (λ x, x ∈ b) a).

(** [x in s] for a cell [x]. *)
Definition cell_in (x : cell) (s : list value) : bool :=
  match x with
  | Some v => bool_decide (v ∈ s)
  | None => false
  end.

(** [series.isin(s)] *)
Definition isin (s : list cell) (vs : list value) : list bool :=
  (λ x, cell_in x vs) <$> s.

(** [d[k]] on the items of a dictionary. *)
Fixpoint items_get {V : Type} (items : list (string * V)) (k : string) : result V :=
  match items with
  | [] => Raise (KeyError k)
  | (k', v) :: items' => if decide (k' = k) then Ok v else items_get items' k
  end.

Section compare.
Variable data_dict : list (string * DataFrame).

(** Lines 29-31. *)
Definition history_step (year : string) (chipset_history : gmap string (list value))
    : result (gmap string (list value)) :=
  df ← items_get data_dict year;
  col ← getitem df CHIPSET_SP;
  let current_chipsets := set_of (unique (dropna col)) in
  Ok (<[year := current_chipsets]> chipset_history).

Definition build_history (year_list : list string) : result (gmap string (list value)) :=
  for_each year_list history_step ∅.

Definition records_isin (year : string) (s : list value) : result (list record) :=
  df ← items_get data_dict year;
  df' ← items_get data_dict year;
  col ← getitem df' CHIPSET_SP;
  Ok (to_dict_records (mask_getitem df (isin col s))).

Variable chipset_history : gmap string (list value).

(** Lines 35-38. *)
Definition added_step (year : string) (st : list value * list record)
    : result (list value * list record) :=
  let '(all_previous_chipsets, added) := st in
  current ← dict_get chipset_history year;
  let added_chipsets := set_difference current all_previous_chipsets in
  current' ← dict_get chipset_history year;
  let all_previous_chipsets := set_update all_previous_chipsets current' in
  recs ← records_isin year added_chipsets;
  Ok (all_previous_chipsets, added ++ recs).

Definition added_loop (year_list : list string) : result (list value * list record) :=
  for_each year_list added_step ([], []).

Variable year_list : list string.

(** Lines 42-47. *)
Definition removed_step (i : nat) (st : list value * list record)
    : result (list value * list record) :=
  let '(removed_chipsets_set, removed) := st in
  prev_year ← list_get year_list i;
  later ← map_result (dict_get chipset_history) (drop (i + 1) year_list);
  let later_years_chipsets := set_union_all later in
  current ← dict_get chipset_history prev_year;
  let removed_chipsets := set_difference current later_years_chipsets in
  recs ← records_isin prev_year removed_chipsets;
  Ok (set_update removed_chipsets_set removed_chipsets, removed ++ recs).

Definition removed_loop : result (list value * list record) :=
  for_each (seq 0 (length year_list - 1)) removed_step ([], []).

(** Lines 51-55. *)
Definition reappeared_step (year : nat) (st : list value * list record)
    : result (list value * list record) :=
  let '(reappeared_chipsets_set, reappeared) := st in
  older_year ← list_get year_list (year - 2);
  prev_year ← list_get year_list (year - 1);
  curr_year ← list_get year_list year;
  older ← dict_get chipset_history older_year;
  prev ← dict_get chipset_history prev_year;
  curr ← dict_get chipset_history curr_year;
  let reappeared_chipsets := set_intersection (set_difference older prev) curr in
  recs ← records_isin curr_year reappeared_chipsets;
  Ok (set_update reappeared_chipsets_set reappeared_chipsets, reappeared ++ recs).

Definition reappeared_loop : result (list value * list record) :=
  for_each (seq 2 (length year_list - 2)) reappeared_step ([], []).

(** Lines 57-58. *)
Definition reconcile (reappeared_chipsets_set : list value) (removed : list record)
    : result (list record) :=
  removed ← filter_result
    (λ entry, x ← record_get entry CHIPSET_SP;
              Ok (negb (cell_in x reappeared_chipsets_set))) removed;
  filter_result
    (λ entry, x ← record_get entry CHIPSET_SP;
              first_year ← list_get year_list 0;
              first ← dict_get chipset_history first_year;
              Ok (cell_in x first)) removed.
End compare.

(** Lines 24-58. *)
Definition compare_records (data_dict : list (string * DataFrame))
    : result (list record * list record * list record) :=
  let year_list := merge_sort String.le data_dict.*1 in
  chipset_history ← build_history data_dict year_list;
  st_added ← added_loop data_dict chipset_history year_list;
  st_removed ← removed_loop data_dict chipset_history year_list;
  st_reappeared ← reappeared_loop data_dict chipset_history year_list;
  removed ← reconcile chipset_history year_list st_reappeared.1 st_removed.2;
  Ok (st_added.2, removed, st_reappeared.2).

(** Line 60. *)
Definition compare_chipsets (data_dict : list (string * DataFrame))
    : result (DataFrame * DataFrame * DataFrame) :=
  out ← compare_records data_dict;
  let '(added, removed, reappeared) := out in
  Ok (add_serial_number (DataFrame_of_records added),
      add_serial_number (DataFrame_of_records removed),
      add_serial_number (DataFrame_of_records reappeared)).
End order.
End Hashed.

(** What a hashed set, a history of hashed sets and a loop state stand for. *)
Definition abs_history (h : gmap string (list value)) : history :=
  list_to_set <$> h.

Definition abs_state (st : list value * list record) : gset value * list record :=
  (list_to_set st.1, st.2).

(** ** Closed forms of the loops *)

(** The identifier set of a period: the non-null cells of its identifier column. *)
Definition ids (df : DataFrame) : gset value :=
  list_to_set (dropna (cell_of CHIPSET_SP <$> rows df)).

(** The records of a frame whose identifier is in [s], in row order. *)
Definition select (df : DataFrame) (s : gset value) : list record :=
  row_to_record (columns df)
    <$> filter (λ row, cell_in (cell_of CHIPSET_SP row) s = true) (rows df).

(** The identifier cell of a record. *)
Definition record_id (r : record) : cell :=
  match record_lookup CHIPSET_SP r with
  | Some x => x
  | None => None
  end.

(** The frames of the mapping in ascending order of their year. *)
Definition periods (data_dict : gmap string DataFrame) : list DataFrame :=
  omap (λ y, data_dict !! y) (sorted_keys data_dict).

(** Every frame has the identifier column. *)
Definition has_identifier_column (data_dict : gmap string DataFrame) : Prop :=
  map_Forall (λ _ df, CHIPSET_SP ∈ columns df) data_dict.

#[global] Instance has_identifier_column_dec dd : Decision (has_identifier_column dd).
Proof. unfold has_identifier_column. apply _. Defined.

(** The labels of every frame are distinct. *)
Definition distinct_labels (data_dict : gmap string DataFrame) : Prop :=
  map_Forall (λ _ df, NoDup (columns df)) data_dict.

#[global] Instance distinct_labels_dec dd : Decision (distinct_labels dd).
Proof. unfold distinct_labels. apply _. Defined.

(** Running-union pass of the Added computation, following the
    specification: at each period the records whose identifier is in
    [S_i − U] are appended, then [U := U ∪ S_i]. *)
Fixpoint added_pass (U : gset value) (ps : list DataFrame) : list record :=
  match ps with
  | [] => []
  | p :: ps' => select p (ids p ∖ U) ++ added_pass (U ∪ ids p) ps'
  end.

(** Identifiers of the periods after index [i]. *)
Definition later_union (ps : list DataFrame) (i : nat) : gset value :=
  ⋃ (ids <$> drop (i + 1) ps).

Definition removed_ids (ps : list DataFrame) (i : nat) : gset value :=
  match ps !! i with
  | Some p => ids p ∖ later_union ps i
  | None => ∅
  end.

Definition removed_chunk (ps : list DataFrame) (i : nat) : list record :=
  match ps !! i with
  | Some p => select p (removed_ids ps i)
  | None => []
  end.

Definition removed_candidates (ps : list DataFrame) : list record :=
  seq 0 (length ps - 1) ≫= removed_chunk ps.

Definition reappeared_ids (ps : list DataFrame) (i : nat) : gset value :=
  match ps !! (i - 2), ps !! (i - 1), ps !! i with
  | Some older, Some prev, Some curr => (ids older ∖ ids prev) ∩ ids curr
  | _, _, _ => ∅
  end.

Definition reappeared_chunk (ps : list DataFrame) (i : nat) : list record :=
  match ps !! i with
  | Some curr => select curr (reappeared_ids ps i)
  | None => []
  end.

Definition reappeared_records (ps : list DataFrame) : list record :=
  seq 2 (length ps - 2) ≫= reappeared_chunk ps.

(** Union of the identifiers classified as Reappeared, over all windows. *)
Definition reappeared_union (ps : list DataFrame) : gset value :=
  ⋃ (reappeared_ids ps <$> seq 2 (length ps - 2)).

Definition first_ids (ps : list DataFrame) : gset value :=
  match ps with
  | p :: _ => ids p
  | [] => ∅
  end.

(** The condition a Removed candidate has to meet to survive lines 57-58. *)
Definition survives (ps : list DataFrame) (r : record) : Prop :=
  cell_in (record_id r) (reappeared_union ps) = false
  ∧ cell_in (record_id r) (first_ids ps) = true.

#[global] Instance survives_dec ps r : Decision (survives ps r).
Proof. unfold survives. apply _. Defined.

Definition removed_final (ps : list DataFrame) : list record :=
  filter (survives ps) (removed_candidates ps).

(** The relation between a record and the row it becomes in an output
    frame: every field but the ordinal is the record's. *)
Definition same_fields (r : record) (row : gmap string cell) : Prop :=
  ∀ c, c ≠ SR_NO → row !! c = record_lookup c r.

(** Text and NaN: the cells pandas stores as they are in every column. *)
Definition is_text (x : cell) : Prop :=
  match x with
  | Some (Int _) => False
  | _ => True
  end.

#[global] Instance is_text_dec x : Decision (is_text x).
Proof. destruct x as [[s|z]|]; cbn; apply _. Defined.

(** [r] is the record of an input row with a non-null identifier. *)
Definition from_input (ps : list DataFrame) (r : record) : Prop :=
  ∃ p row v, p ∈ ps ∧ row ∈ rows p ∧ r = row_to_record (columns p) row
             ∧ cell_of CHIPSET_SP row = Some v.

(** ** Sample inputs *)

Definition mk_row (sp : cell) (customer : string) : gmap string cell :=
  {[ CHIPSET_SP := sp; "Customer" := Some (Str customer) ]}.

Definition mk_frame (rs : list (gmap string cell)) : DataFrame :=
  {| columns := [CHIPSET_SP; "Customer"]; rows := rs |}.

Definition mk_record (sp : cell) (customer : string) : record :=
  [(CHIPSET_SP, sp); ("Customer", Some (Str customer))].

(** 2021 = {a, x, NaN}, 2022 = {x, y}, 2023 = {a, x}. *)
Definition sample3 : gmap string DataFrame :=
  {[ "2021" := mk_frame [mk_row (Some (Str "a")) "c1"; mk_row (Some (Str "x")) "c2";
                         mk_row None "c3"];
     "2022" := mk_frame [mk_row (Some (Str "x")) "c2"; mk_row (Some (Str "y")) "c4"];
     "2023" := mk_frame [mk_row (Some (Str "a")) "c1"; mk_row (Some (Str "x")) "c2"] ]}.

(** 2019 = {a}, 2020 = {}, 2021 = {a}, 2022 = {}, 2023 = {a}. *)
Definition sample5 : gmap string DataFrame :=
  {[ "2019" := mk_frame [mk_row (Some (Str "a")) "c1"];
     "2020" := mk_frame [];
     "2021" := mk_frame [mk_row (Some (Str "a")) "c1"];
     "2022" := mk_frame [];
     "2023" := mk_frame [mk_row (Some (Str "a")) "c1"] ]}.

(** 2020 = {a, b}, 2021 = {b}, 2022 = {a, y}, 2023 = {}: [b], [a] and [y]
    are Removed candidates; [a] is also Reappeared and [y] is not in the
    first period. *)
Definition sample4 : gmap string DataFrame :=
  {[ "2020" := mk_frame [mk_row (Some (Str "a")) "c1"; mk_row (Some (Str "b")) "c2"];
     "2021" := mk_frame [mk_row (Some (Str "b")) "c2"];
     "2022" := mk_frame [mk_row (Some (Str "a")) "c1"; mk_row (Some (Str "y")) "c4"];
     "2023" := mk_frame [] ]}.

(** One period, two records, the second with a null identifier. *)
Definition sample_null_frame : DataFrame :=
  mk_frame [mk_row (Some (Str "a")) "c1"; mk_row None "c3"].

Definition sample_null : gmap string DataFrame :=
  {[ "2021" := sample_null_frame ]}.

(** One period whose only record has the empty string as identifier. *)
Definition sample_empty_string : gmap string DataFrame :=
  {[ "2021" := mk_frame [mk_row (Some (Str "")) "c1"] ]}.

Definition empty_numbered_frame : DataFrame :=
  {| columns := [SR_NO]; rows := [] |}.

(** One period whose frame already has a "Sr. No" column. *)
Definition sample_sr_no_row : gmap string cell :=
  {[ SR_NO := Some (Str "7"); CHIPSET_SP := Some (Str "a") ]}.

Definition sample_sr_no : gmap string DataFrame :=
  {[ "2021" := {| columns := [SR_NO; CHIPSET_SP]; rows := [sample_sr_no_row] |} ]}.

(** ** Ingestion, file names and the session of [main] *)

Definition S_NO : string := "S.No".

(** An uploaded file: its name, and the table [pd.read_csv] parses from it. *)
Record UploadedFile := mkUploadedFile {
  file_name : string;
  file_table : DataFrame
}.

(** [df.loc[:, mask]] for a mask computed from the column labels. *)
Definition loc_columns (keep : string → bool) (df : DataFrame) : DataFrame :=
  {| columns := filter (λ k, keep k = true) (columns df);
     rows := filter (λ kv, keep kv.1 = true) <$> rows df |}.

(** [~df.columns.str.contains('^Unnamed', na=False)] on one label. *)
Definition not_unnamed (k : string) : bool := negb (String.prefix "Unnamed" k).

(** Lines 4-12. *)
Definition load_data (uploaded_file : option UploadedFile) : option DataFrame :=
  match uploaded_file with
  | Some file =>
      let df := file_table file in
      let df := loc_columns not_unnamed df in
      let df := if decide (S_NO ∈ columns df) then drop_column S_NO df else df in
      Some df
  | None => None
  end.

(** [s.split('.')[0]]: the text before the first dot. *)
Fixpoint before_dot (s : string) : string :=
  match s with
  | EmptyString => EmptyString
  | String c s' => if decide (c = "."%char) then EmptyString else String c (before_dot s')
  end.

Fixpoint string_drop (n : nat) (s : string) : string :=
  match n, s with
  | O, _ => s
  | S n', String _ s' => string_drop n' s'
  | S _, EmptyString => EmptyString
  end.

(** [s[-n:]] for [n > 0]: the last [n] characters, all of [s] when it is shorter. *)
Definition last_chars (n : nat) (s : string) : string :=
  string_drop (String.length s - n) s.

(** Line 70: [file.name.split('.')[0][-4:]].  A character is one of the
    8-bit characters of [string]: file names are taken to be ASCII. *)
Definition year_of_filename (name : string) : string :=
  last_chars 4 (before_dot name).

(** The names on which the 8-bit characters of [string] are the characters
    Python sees. *)
Definition is_ascii_name (name : string) : Prop :=
  Forall (λ c, (nat_of_ascii c < 128)%nat) (String.list_ascii_of_string name).

#[global] Instance is_ascii_name_dec name : Decision (is_ascii_name name).
Proof. unfold is_ascii_name. apply _. Defined.

(** Lines 69-71, one iteration: [data_dict[year] = load_data(file)].
    [load_data] returns a frame for every file object. *)
Definition upload_step (data_dict : gmap string DataFrame) (file : UploadedFile)
    : gmap string DataFrame :=
  match load_data (Some file) with
  | Some df => <[year_of_filename (file_name file) := df]> data_dict
  | None => data_dict
  end.

(** Lines 67-71. *)
Definition uploaded_dict (uploaded_files : list UploadedFile) : gmap string DataFrame :=
  foldl upload_step ∅ uploaded_files.

Definition MANUAL_COLUMNS : list string := [CHIPSET_SP; "Customer"; "PDM Name"].

(** [pd.DataFrame(columns=["Chipset SP", "Customer", "PDM Name"])] *)
Definition empty_manual : DataFrame :=
  {| columns := MANUAL_COLUMNS; rows := [] |}.

(** Line 85: [{year: pd.DataFrame(columns=...) for year in years}]. *)
Definition init_manual (years : list string) : gmap string DataFrame :=
  list_to_map ((λ y, (y, empty_manual)) <$> years).

(** The cells of a row under the labels of its own frame. *)
Definition project_row (cols : list string) (row : gmap string cell) : gmap string cell :=
  filter (λ kv, kv.1 ∈ cols) row.

(** [pd.concat([a, b], ignore_index=True)]: the columns of [a], then the
    new ones of [b]; the rows of [a], then those of [b]; a cell under a
    label the row's own frame lacks is NaN.  As for [DataFrame_of_records],
    the column types are not modelled: only the labels, the number of rows
    and the text and NaN cells of the result are meant. *)
Definition pd_concat (a b : DataFrame) : DataFrame :=
  {| columns := ordered_union [] (columns a ++ columns b);
     rows := (project_row (columns a) <$> rows a)
             ++ (project_row (columns b) <$> rows b) |}.

(** The widgets of the sidebar, as read in one run of the script. *)
Record SidebarInput := mkSidebarInput {
  selected_year : string;
  new_chipset : string;
  new_customer : string;
  new_pdm : string;
  add_entry_clicked : bool
}.

(** Lines 88-92. *)
Definition new_entry (inp : SidebarInput) : DataFrame :=
  {| columns := MANUAL_COLUMNS;
     rows := [ {[ CHIPSET_SP := Some (Str (new_chipset inp));
                  "Customer" := Some (Str (new_customer inp));
                  "PDM Name" := Some (Str (new_pdm inp)) ]} ] |}.

(** Lines 98-99, one iteration. *)
Definition merge_step (manual_entries : gmap string DataFrame) (year : string)
    (data_dict : gmap string DataFrame) : result (gmap string DataFrame) :=
  df ← dict_get data_dict year;
  manual ← dict_get manual_entries year;
  Ok (<[year := pd_concat df manual]> data_dict).

(** Lines 105-108 inside [with cols[i]:], for [cols = st.columns(n)]: the
    numbered frame shown for each year (before [set_index] moves the
    ordinal into the index). *)
Definition previews (data_dict : gmap string DataFrame) (years : list string)
    : result (list DataFrame) :=
  map_result (λ year, df ← dict_get data_dict year; Ok (add_serial_number df)) years.

(** Lines 103-108.  With more than one year [cols] are the columns of the
    page.  Otherwise [cols = [st]], and the first iteration of the loop
    enters [with st:], which raises. *)
Definition show_previews (data_dict : gmap string DataFrame) (years : list string)
    : result (list DataFrame) :=
  if decide (1 < length years) then previews data_dict years
  else match years with
       | [] => Ok []
       | _ :: _ => Raise TypeError
       end.

Inductive run_outcome :=
  | Shown (shown_previews : list DataFrame) (added removed reappeared : DataFrame)
  | Rerun
  | NoUpload (msg : string)
  | Failed (e : exn).

(** Lines 97-126, after the sidebar: merge, preview, compare. *)
Definition show_comparison (data_dict manual_entries : gmap string DataFrame)
    (years : list string) : result run_outcome :=
  data_dict ← for_each years (merge_step manual_entries) data_dict;
  tables ← show_previews data_dict years;
  out ← compare_chipsets data_dict;
  let '(added, removed, reappeared) := out in
  Ok (Shown tables added removed reappeared).

(** Lines 62-128: one run of the script, from the uploaded files, the
    sidebar widgets and [st.session_state.manual_entries] (absent in a
    fresh session) to the new session state and what the run ends in. *)
Definition main_run (uploaded_files : list UploadedFile) (inp : SidebarInput)
    (session : option (gmap string DataFrame))
    : option (gmap string DataFrame) * run_outcome :=
  let data_dict := uploaded_dict uploaded_files in
  let years := sorted_keys data_dict in
  if decide (0 < length years) then
    let manual_entries :=
      match session with
      | Some m => m
      | None => init_manual years
      end in
    if add_entry_clicked inp then
      match dict_get manual_entries (selected_year inp) with
      | Ok old =>
          (Some (<[selected_year inp := pd_concat old (new_entry inp)]> manual_entries),
           Rerun)
      | Raise e => (Some manual_entries, Failed e)
      end
    else
      match show_comparison data_dict manual_entries years with
      | Ok shown => (Some manual_entries, shown)
      | Raise e => (Some manual_entries, Failed e)
      end
  else (session, NoUpload "Please upload at least one CSV file.").

(** Every manual-entry frame of the session has the three manual columns. *)
Definition manual_columns_ok (session : option (gmap string DataFrame)) : Prop :=
  match session with
  | Some m => map_Forall (λ _ df, columns df = MANUAL_COLUMNS) m
  | None => True
  end.

(** Two uploads for the same year and one table with index artifacts. *)
Definition raw_table : DataFrame :=
  {| columns := ["Unnamed: 0"; S_NO; CHIPSET_SP; "Customer"];
     rows := [ {[ "Unnamed: 0" := Some (Int 0); S_NO := Some (Int 1);
                  CHIPSET_SP := Some (Str "a"); "Customer" := Some (Str "c1") ]};
               {[ "Unnamed: 0" := Some (Int 1); S_NO := Some (Int 2);
                  CHIPSET_SP := None; "Customer" := Some (Str "c3") ]} ] |}.

Definition sample_files : list UploadedFile :=
  [ {| file_name := "chipsets_2021.csv"; file_table := raw_table |};
    {| file_name := "chipsets_2022.csv";
       file_table := mk_frame [mk_row (Some (Str "x")) "c2"] |} ].

Definition sample_input (clicked : bool) : SidebarInput :=
  {| selected_year := "2022"; new_chipset := "m"; new_customer := "c9";
     new_pdm := "p9"; add_entry_clicked := clicked |}.

(** ** Basic facts *)

Ltac bind_ok := cbn [mbind result_bind mret result_ret].


Lemma bind_Ok {A B} (f : A → result B) (a : A) : (Ok a ≫= f) = f a.
Proof. reflexivity. Qed.

Lemma bind_Ok_inv {A B} (f : A → result B) (m : result A) (b : B) :
  m ≫= f = Ok b → ∃ a, m = Ok a ∧ f a = Ok b.
Proof. destruct m as [a|e]; [eauto | discriminate]. Qed.

Lemma dict_get_Some {V} (m : gmap string V) k v :
  m !! k = Some v → dict_get m k = Ok v.
Proof. unfold dict_get. by intros ->. Qed.

Lemma list_get_Some {A} (l : list A) i x :
  l !! i = Some x → list_get l i = Ok x.
Proof. unfold list_get. by intros ->. Qed.

Lemma getitem_Ok df c :
  c ∈ columns df → getitem df c = Ok (cell_of c <$> rows df).
Proof. unfold getitem. intros H. by rewrite decide_True. Qed.

Lemma elem_of_unique (l : list value) x : x ∈ unique l ↔ x ∈ l.
Proof.
  induction l as [|y l IH]; simpl; [done|].
  rewrite !elem_of_cons, list_elem_of_filter, IH.
  destruct (decide (x = y)); naive_solver.
Qed.

Lemma NoDup_unique (l : list value) : NoDup (unique l).
Proof.
  induction l as [|y l IH]; simpl; [constructor|].
  constructor.
  - rewrite list_elem_of_filter. naive_solver.
  - by apply NoDup_filter.
Qed.

Lemma list_to_set_unique (l : list value) :
  (list_to_set (unique l) : gset value) = list_to_set l.
Proof.
  apply set_eq. intros x. by rewrite !elem_of_list_to_set, elem_of_unique.
Qed.

Lemma elem_of_ids df v :
  v ∈ ids df ↔ ∃ row, row ∈ rows df ∧ cell_of CHIPSET_SP row = Some v.
Proof.
  unfold ids, dropna. rewrite elem_of_list_to_set, list_elem_of_omap.
  setoid_rewrite list_elem_of_fmap. split.
  - intros (x & (row & -> & Hrow) & Hx). simpl in Hx. eauto.
  - intros (row & Hrow & Hv). exists (Some v). split; [|done].
    exists row. by rewrite Hv.
Qed.

Lemma cell_in_true x s : cell_in x s = true ↔ ∃ v, x = Some v ∧ v ∈ s.
Proof.
  destruct x as [v|]; simpl.
  - rewrite bool_decide_eq_true. naive_solver.
  - naive_solver.
Qed.

Lemma cell_in_false x s : cell_in x s = false ↔ ∀ v, x = Some v → v ∉ s.
Proof.
  destruct x as [v|]; simpl.
  - rewrite bool_decide_eq_false. naive_solver.
  - naive_solver.
Qed.

Lemma select_rows_isin {A} (f : A → bool) (l : list A) :
  select_rows l (f <$> l) = filter (λ x, f x = true) l.
Proof.
  induction l as [|x l IH]; [done|].
  rewrite fmap_cons. cbn [select_rows]. rewrite IH. destruct (f x) eqn:E.
  - by rewrite filter_cons_True.
  - rewrite filter_cons_False; [done|]. by rewrite E.
Qed.

Lemma to_dict_mask df s :
  to_dict_records (mask_getitem df (isin (cell_of CHIPSET_SP <$> rows df) s))
  = select df s.
Proof.
  unfold to_dict_records, mask_getitem, isin, select. simpl.
  rewrite <- list_fmap_compose.
  by rewrite (select_rows_isin (λ row, cell_in (cell_of CHIPSET_SP row) s)).
Qed.

Lemma elem_of_select df s r :
  r ∈ select df s ↔
  ∃ row v, row ∈ rows df ∧ r = row_to_record (columns df) row
           ∧ cell_of CHIPSET_SP row = Some v ∧ v ∈ s.
Proof.
  unfold select. rewrite list_elem_of_fmap.
  setoid_rewrite list_elem_of_filter. setoid_rewrite cell_in_true.
  naive_solver.
Qed.

Lemma record_lookup_row cols row c :
  c ∈ cols → record_lookup c (row_to_record cols row) = Some (cell_of c row).
Proof.
  induction cols as [|k cols IH]; simpl.
  - by intros ?%elem_of_nil.
  - intros Hc. destruct (decide (k = c)) as [->|Hne]; [done|].
    apply IH. apply elem_of_cons in Hc as [->|]; done.
Qed.

Lemma record_lookup_row_None cols row c :
  c ∉ cols → record_lookup c (row_to_record cols row) = None.
Proof.
  induction cols as [|k cols IH]; simpl; [done|].
  intros Hc. apply not_elem_of_cons in Hc as [Hne Hc].
  rewrite decide_False by done. by apply IH.
Qed.

(** ** The sorted year list *)

Lemma sorted_keys_perm {V} (m : gmap string V) :
  sorted_keys m ≡ₚ (map_to_list m).*1.
Proof. apply merge_sort_Permutation. Qed.

Lemma elem_of_sorted_keys {V} (m : gmap string V) y :
  y ∈ sorted_keys m ↔ is_Some (m !! y).
Proof.
  rewrite sorted_keys_perm, list_elem_of_fmap. split.
  - intros ([k v] & -> & Hkv). apply elem_of_map_to_list in Hkv. eauto.
  - intros [v Hv]. exists (y, v). split; [done|]. by apply elem_of_map_to_list.
Qed.

Lemma NoDup_sorted_keys {V} (m : gmap string V) : NoDup (sorted_keys m).
Proof. rewrite sorted_keys_perm. apply NoDup_fst_map_to_list. Qed.

Lemma length_sorted_keys {V} (m : gmap string V) :
  length (sorted_keys m) = size m.
Proof.
  rewrite sorted_keys_perm, length_fmap. apply length_map_to_list.
Qed.

Lemma StronglySorted_strict {A} (R : relation A) `{!AntiSymm (=) R} (l : list A) :
  StronglySorted R l → NoDup l → StronglySorted (strict R) l.
Proof.
  induction 1 as [|x l Hl IH Hx]; intros Hnd; [constructor|].
  apply NoDup_cons in Hnd as [Hnotin Hnd].
  constructor; [by apply IH|].
  rewrite Forall_forall in Hx |- *. intros y Hy. split; [by apply Hx|].
  intros Hyx. assert (x = y) as -> by (apply (anti_symm R); auto).
  done.
Qed.

(** The years are processed in strictly ascending order. *)
Lemma sorted_keys_ascending {V} (m : gmap string V) :
  StronglySorted (strict String.le) (sorted_keys m).
Proof.
  apply StronglySorted_strict; [apply _| |apply NoDup_sorted_keys].
  apply StronglySorted_merge_sort; apply _.
Qed.

Lemma sorted_keys_empty {V} : sorted_keys (∅ : gmap string V) = [].
Proof. unfold sorted_keys. by rewrite map_to_list_empty. Qed.

Lemma sorted_keys_singleton {V} y (v : V) : sorted_keys ({[ y := v ]} : gmap string V) = [y].
Proof. unfold sorted_keys. by rewrite map_to_list_singleton. Qed.

Lemma Forall2_omap {A B} (f : A → option B) (l : list A) :
  Forall (λ x, is_Some (f x)) l → Forall2 (λ x y, f x = Some y) l (omap f l).
Proof.
  induction 1 as [|x l [y Hy] _ IH]; simpl; [constructor|].
  rewrite Hy. by constructor.
Qed.

Lemma periods_years dd :
  Forall2 (λ y p, dd !! y = Some p) (sorted_keys dd) (periods dd).
Proof.
  apply Forall2_omap, Forall_forall. intros y. by rewrite elem_of_sorted_keys.
Qed.

Lemma length_periods dd : length (periods dd) = size dd.
Proof.
  rewrite <- (Forall2_length _ _ _ (periods_years dd)). apply length_sorted_keys.
Qed.

Lemma periods_empty : periods ∅ = [].
Proof. unfold periods. by rewrite sorted_keys_empty. Qed.

Lemma periods_singleton y p : periods {[ y := p ]} = [p].
Proof.
  unfold periods. rewrite sorted_keys_singleton. simpl.
  by rewrite lookup_singleton_eq.
Qed.

Lemma elem_of_periods dd p : p ∈ periods dd ↔ ∃ y, dd !! y = Some p.
Proof.
  unfold periods. rewrite list_elem_of_omap. split.
  - intros (y & _ & Hy). eauto.
  - intros (y & Hy). exists y. split; [|done]. apply elem_of_sorted_keys. eauto.
Qed.

(** ** The loops compute their closed forms *)

Lemma for_each_accum {A} (l : list A) (body : A → gset value * list record →
      result (gset value * list record)) (f : A → gset value) (g : A → list record) :
  (∀ x s acc, x ∈ l → body x (s, acc) = Ok (s ∪ f x, acc ++ g x)) →
  ∀ s acc, for_each l body (s, acc) = Ok (s ∪ ⋃ (f <$> l), acc ++ (l ≫= g)).
Proof.
  induction l as [|x l IH]; intros Hbody s acc.
  - simpl. by rewrite (right_id_L ∅ (∪)), (right_id_L [] (++)).
  - cbn [for_each]. rewrite Hbody by left. cbn.
    rewrite IH by (intros; apply Hbody; by right).
    by rewrite (assoc_L (∪)), (assoc_L (++)).
Qed.

Lemma filter_result_pure {A} (p : A → result bool) (P : A → Prop)
    `{!∀ x, Decision (P x)} (l : list A) :
  (∀ x, x ∈ l → p x = Ok (bool_decide (P x))) →
  filter_result p l = Ok (filter P l).
Proof.
  induction l as [|x l IH]; intros Hp; [done|].
  cbn [filter_result]. rewrite Hp by left.
  rewrite IH by (intros; apply Hp; by right).
  destruct (decide (P x)) as [HP|HP].
  - by rewrite filter_cons_True, bool_decide_true.
  - by rewrite filter_cons_False, bool_decide_false.
Qed.

Section loops.
Variable dd : gmap string DataFrame.
Hypothesis Hcol : has_identifier_column dd.

Lemma history_step_Ok y p h :
  dd !! y = Some p → history_step dd y h = Ok (<[y := ids p]> h).
Proof.
  intros Hy. unfold history_step. rewrite (dict_get_Some _ _ _ Hy). bind_ok.
  rewrite getitem_Ok by (by eapply Hcol). bind_ok.
  by rewrite list_to_set_unique.
Qed.

Lemma for_each_history ys ps :
  Forall2 (λ y p, dd !! y = Some p) ys ps →
  ∀ h, ∃ h', for_each ys (history_step dd) h = Ok h'
    ∧ ∀ y, h' !! y = if decide (y ∈ ys) then ids <$> dd !! y else h !! y.
Proof.
  induction 1 as [|y p ys ps Hy _ IH]; intros h.
  - exists h. split; [done|]. intros y. by rewrite decide_False by apply not_elem_of_nil.
  - cbn [for_each]. rewrite (history_step_Ok _ _ _ Hy). bind_ok.
    destruct (IH (<[y := ids p]> h)) as (h' & -> & Hh'). exists h'. split; [done|].
    intros z. rewrite Hh'. destruct (decide (z ∈ ys)) as [Hz|Hz].
    + rewrite decide_True; [done|by right].
    + destruct (decide (z = y)) as [->|Hne].
      * rewrite decide_True by left. by rewrite lookup_insert_eq, Hy.
      * rewrite decide_False by (rewrite elem_of_cons; naive_solver).
        by rewrite lookup_insert_ne.
Qed.

Lemma build_history_Ok :
  build_history dd (sorted_keys dd) = Ok (ids <$> dd).
Proof.
  unfold build_history.
  destruct (for_each_history _ _ (periods_years dd) ∅) as (h' & -> & Hh').
  f_equal. apply map_eq. intros y. rewrite Hh', lookup_fmap.
  case_decide as Hy; [done|].
  rewrite elem_of_sorted_keys, <- eq_None_not_Some in Hy. by rewrite Hy, lookup_empty.
Qed.

Lemma records_isin_Ok y p s :
  dd !! y = Some p → records_isin dd y s = Ok (select p s).
Proof.
  intros Hy. unfold records_isin. rewrite (dict_get_Some _ _ _ Hy). bind_ok.
  rewrite getitem_Ok by (by eapply Hcol). bind_ok.
  by rewrite to_dict_mask.
Qed.

Lemma history_get y p :
  dd !! y = Some p → dict_get (ids <$> dd) y = Ok (ids p).
Proof. intros Hy. apply dict_get_Some. by rewrite lookup_fmap, Hy. Qed.

Lemma for_each_added ys ps :
  Forall2 (λ y p, dd !! y = Some p) ys ps →
  ∀ U acc, for_each ys (added_step dd (ids <$> dd)) (U, acc)
           = Ok (U ∪ ⋃ (ids <$> ps), acc ++ added_pass U ps).
Proof.
  induction 1 as [|y p ys ps Hy _ IH]; intros U acc.
  - simpl. by rewrite (right_id_L ∅ (∪)), (right_id_L [] (++)).
  - cbn [for_each added_step]. rewrite (history_get _ _ Hy). bind_ok.
    rewrite (records_isin_Ok _ _ _ Hy). bind_ok. rewrite IH. cbn [added_pass].
    by rewrite fmap_cons, union_list_cons, (assoc_L (∪)), (assoc_L (++)).
Qed.

Lemma map_result_history ys ps :
  Forall2 (λ y p, dd !! y = Some p) ys ps →
  map_result (dict_get (ids <$> dd)) ys = Ok (ids <$> ps).
Proof.
  induction 1 as [|y p ys ps Hy _ IH]; [done|].
  cbn [map_result]. rewrite (history_get _ _ Hy). bind_ok. by rewrite IH.
Qed.

Variables (ys : list string) (ps : list DataFrame).
Hypothesis Hys : Forall2 (λ y p, dd !! y = Some p) ys ps.

Lemma removed_step_Ok (i : nat) s acc :
  (i < length ys)%nat →
  removed_step dd (ids <$> dd) ys i (s, acc)
  = Ok (s ∪ removed_ids ps i, acc ++ removed_chunk ps i).
Proof.
  intros Hi. destruct (lookup_lt_is_Some_2 ys i Hi) as [y Hy].
  destruct (Forall2_lookup_l _ _ _ _ _ Hys Hy) as (p & Hp & Hyp).
  unfold removed_step. rewrite (list_get_Some _ _ _ Hy). bind_ok.
  rewrite (map_result_history _ (drop (i + 1) ps)) by (by apply Forall2_drop).
  bind_ok. rewrite (history_get _ _ Hyp). bind_ok.
  rewrite (records_isin_Ok _ _ _ Hyp). bind_ok.
  unfold removed_chunk, removed_ids, later_union. by rewrite Hp.
Qed.

Lemma removed_loop_Ok :
  removed_loop dd (ids <$> dd) ys
  = Ok (⋃ (removed_ids ps <$> seq 0 (length ps - 1)), removed_candidates ps).
Proof.
  unfold removed_loop. rewrite (Forall2_length _ _ _ Hys).
  rewrite (for_each_accum _ _ (removed_ids ps) (removed_chunk ps)).
  - by rewrite (left_id_L ∅ (∪)).
  - intros i s acc Hi. apply removed_step_Ok.
    apply elem_of_seq in Hi. rewrite (Forall2_length _ _ _ Hys). lia.
Qed.

Lemma reappeared_step_Ok (i : nat) s acc :
  (2 ≤ i)%nat → (i < length ys)%nat →
  reappeared_step dd (ids <$> dd) ys i (s, acc)
  = Ok (s ∪ reappeared_ids ps i, acc ++ reappeared_chunk ps i).
Proof.
  intros Hi2 Hi.
  destruct (lookup_lt_is_Some_2 ys (i - 2)) as [y0 Hy0]; [lia|].
  destruct (lookup_lt_is_Some_2 ys (i - 1)) as [y1 Hy1]; [lia|].
  destruct (lookup_lt_is_Some_2 ys i Hi) as [y2 Hy2].
  destruct (Forall2_lookup_l _ _ _ _ _ Hys Hy0) as (p0 & Hp0 & Hyp0).
  destruct (Forall2_lookup_l _ _ _ _ _ Hys Hy1) as (p1 & Hp1 & Hyp1).
  destruct (Forall2_lookup_l _ _ _ _ _ Hys Hy2) as (p2 & Hp2 & Hyp2).
  unfold reappeared_step.
  rewrite (list_get_Some _ _ _ Hy0). bind_ok.
  rewrite (list_get_Some _ _ _ Hy1). bind_ok.
  rewrite (list_get_Some _ _ _ Hy2). bind_ok.
  rewrite (history_get _ _ Hyp0). bind_ok.
  rewrite (history_get _ _ Hyp1). bind_ok.
  rewrite (history_get _ _ Hyp2). bind_ok.
  rewrite (records_isin_Ok _ _ _ Hyp2). bind_ok.
  unfold reappeared_chunk, reappeared_ids. by rewrite Hp0, Hp1, Hp2.
Qed.

Lemma reappeared_loop_Ok :
  reappeared_loop dd (ids <$> dd) ys
  = Ok (reappeared_union ps, reappeared_records ps).
Proof.
  unfold reappeared_loop. rewrite (Forall2_length _ _ _ Hys).
  rewrite (for_each_accum _ _ (reappeared_ids ps) (reappeared_chunk ps)).
  - by rewrite (left_id_L ∅ (∪)).
  - intros i s acc Hi. apply elem_of_seq in Hi.
    apply reappeared_step_Ok; [lia|]. rewrite (Forall2_length _ _ _ Hys). lia.
Qed.
End loops.

Lemma history_step_Raise dd y p h :
  dd !! y = Some p → CHIPSET_SP ∉ columns p →
  history_step dd y h = Raise (KeyError CHIPSET_SP).
Proof.
  intros Hy Hp. unfold history_step. rewrite (dict_get_Some _ _ _ Hy). bind_ok.
  unfold getitem. by rewrite decide_False.
Qed.

Lemma history_step_column dd y p h :
  dd !! y = Some p → CHIPSET_SP ∈ columns p →
  history_step dd y h = Ok (<[y := ids p]> h).
Proof.
  intros Hy Hp. unfold history_step. rewrite (dict_get_Some _ _ _ Hy). bind_ok.
  rewrite getitem_Ok by done. bind_ok. by rewrite list_to_set_unique.
Qed.

Lemma for_each_history_Raise dd ys ps :
  Forall2 (λ y p, dd !! y = Some p) ys ps →
  Exists (λ p, CHIPSET_SP ∉ columns p) ps →
  ∀ h, for_each ys (history_step dd) h = Raise (KeyError CHIPSET_SP).
Proof.
  induction 1 as [|y p ys ps Hy _ IH]; intros Hex h.
  - by apply Exists_nil in Hex.
  - cbn [for_each]. destruct (decide (CHIPSET_SP ∈ columns p)) as [Hp|Hp].
    + rewrite (history_step_column _ _ _ _ Hy Hp). bind_ok.
      apply IH. apply Exists_cons in Hex as [?|?]; done.
    + by rewrite (history_step_Raise _ _ _ _ Hy Hp).
Qed.

(** A frame without the identifier column makes line 30 raise [KeyError]. *)
Lemma compare_records_missing_column dd :
  ¬ has_identifier_column dd →
  compare_records dd = Raise (KeyError CHIPSET_SP).
Proof.
  intros Hno. apply map_not_Forall in Hno as (y & p & Hy & Hp); [|apply _].
  unfold compare_records, build_history.
  rewrite (for_each_history_Raise dd _ _ (periods_years dd)); [done|].
  apply Exists_exists. exists p. split; [|done].
  apply elem_of_periods. eauto.
Qed.

(** ** Where the records of the closed forms come from *)

Lemma select_from_input ps p s r :
  p ∈ ps → r ∈ select p s → from_input ps r.
Proof.
  intros Hp (row & v & Hrow & -> & Hv & _)%elem_of_select.
  by exists p, row, v.
Qed.

Lemma added_pass_from_input ps U r :
  r ∈ added_pass U ps → from_input ps r.
Proof.
  revert U. induction ps as [|p ps IH]; intros U; cbn [added_pass].
  - by intros ?%elem_of_nil.
  - intros [Hr|Hr]%elem_of_app.
    + eapply select_from_input; [left|done].
    + destruct (IH _ Hr) as (q & row & v & Hq & ?).
      exists q, row, v. split; [by right|done].
Qed.

Lemma removed_candidates_from_input ps r :
  r ∈ removed_candidates ps → from_input ps r.
Proof.
  unfold removed_candidates. intros (i & Hr & _)%list_elem_of_bind.
  unfold removed_chunk in Hr. destruct (ps !! i) as [p|] eqn:Hp.
  - eapply select_from_input; [|done]. by eapply list_elem_of_lookup_2.
  - by apply elem_of_nil in Hr.
Qed.

Lemma reappeared_records_from_input ps r :
  r ∈ reappeared_records ps → from_input ps r.
Proof.
  unfold reappeared_records. intros (i & Hr & _)%list_elem_of_bind.
  unfold reappeared_chunk in Hr. destruct (ps !! i) as [p|] eqn:Hp.
  - eapply select_from_input; [|done]. by eapply list_elem_of_lookup_2.
  - by apply elem_of_nil in Hr.
Qed.

Lemma removed_final_from_input ps r :
  r ∈ removed_final ps → from_input ps r.
Proof.
  unfold removed_final. intros [_ Hr]%list_elem_of_filter.
  by apply removed_candidates_from_input.
Qed.

Lemma from_input_record_id dd r :
  has_identifier_column dd → from_input (periods dd) r →
  ∃ v, record_lookup CHIPSET_SP r = Some (Some v) ∧ record_id r = Some v.
Proof.
  intros Hcol (p & row & v & Hp & Hrow & -> & Hv).
  apply elem_of_periods in Hp as [y Hy].
  exists v. unfold record_id.
  rewrite record_lookup_row by (by eapply Hcol). by rewrite Hv.
Qed.

(** ** Lines 57-58 *)

Lemma negb_bool_decide (b : bool) : negb b = bool_decide (b = false).
Proof. by destruct b. Qed.

Lemma bool_decide_eq_true_id (b : bool) : b = bool_decide (b = true).
Proof. by destruct b. Qed.

Lemma reconcile_Ok dd ys ps (Rset : gset value) (cands : list record) :
  Forall2 (λ y p, dd !! y = Some p) ys ps →
  Forall (λ r, is_Some (record_lookup CHIPSET_SP r)) cands →
  (cands ≠ [] → ps ≠ []) →
  reconcile (ids <$> dd) ys Rset cands
  = Ok (filter (λ r, cell_in (record_id r) Rset = false
                     ∧ cell_in (record_id r) (first_ids ps) = true) cands).
Proof.
  intros Hys Hc Hne. unfold reconcile.
  assert (Hget : ∀ r, r ∈ cands → record_get r CHIPSET_SP = Ok (record_id r)).
  { intros r Hr. rewrite Forall_forall in Hc. destruct (Hc r Hr) as [x Hx].
    unfold record_get, record_id. by rewrite Hx. }
  rewrite (filter_result_pure _ (λ r, cell_in (record_id r) Rset = false)).
  2:{ intros r Hr. rewrite (Hget r Hr). bind_ok. by rewrite negb_bool_decide. }
  bind_ok.
  rewrite (filter_result_pure _ (λ r, cell_in (record_id r) (first_ids ps) = true)).
  2:{ intros r [_ Hr]%list_elem_of_filter. rewrite (Hget r Hr). bind_ok.
      destruct Hys as [|y p ys ps Hy Hys].
      - destruct Hne; [|done]. intros ->. by apply elem_of_nil in Hr.
      - cbn [list_get lookup list_lookup]. bind_ok.
        rewrite (dict_get_Some (ids <$> dd) y (ids p)) by (by rewrite lookup_fmap, Hy).
        bind_ok. cbn [first_ids]. by rewrite <- bool_decide_eq_true_id. }
  rewrite list_filter_filter. f_equal. apply list_filter_iff. naive_solver.
Qed.

(** Under the precondition that every frame has the identifier column, the
    comparator returns, and its three record lists are the closed forms. *)
Lemma compare_records_Ok dd :
  has_identifier_column dd →
  compare_records dd
  = Ok (added_pass ∅ (periods dd), removed_final (periods dd),
        reappeared_records (periods dd)).
Proof.
  intros Hcol. unfold compare_records.
  rewrite (build_history_Ok dd Hcol). bind_ok.
  unfold added_loop. rewrite (for_each_added dd Hcol _ _ (periods_years dd)). bind_ok.
  rewrite (removed_loop_Ok dd Hcol _ _ (periods_years dd)). bind_ok.
  rewrite (reappeared_loop_Ok dd Hcol _ _ (periods_years dd)). bind_ok.
  cbn [fst snd].
  rewrite (reconcile_Ok dd _ (periods dd)).
  - bind_ok. by rewrite (left_id_L [] (++)).
  - apply periods_years.
  - apply Forall_forall. intros r Hr%removed_candidates_from_input.
    destruct (from_input_record_id dd r Hcol Hr) as (v & -> & _). eauto.
  - unfold removed_candidates. destruct (periods dd); [|done]. by intros [].
Qed.

Lemma compare_records_Ok_inv dd out :
  compare_records dd = Ok out → has_identifier_column dd.
Proof.
  intros Hout. destruct (decide (has_identifier_column dd)) as [|Hno]; [done|].
  rewrite (compare_records_missing_column dd Hno) in Hout. discriminate.
Qed.

(** ** Line 60: from record lists to numbered frames *)

Lemma lookup_list_to_map_record (r : record) c :
  (list_to_map r : gmap string cell) !! c = record_lookup c r.
Proof.
  induction r as [|[k x] r IH]; [done|].
  rewrite list_to_map_cons. cbn [record_lookup].
  destruct (decide (k = c)) as [->|Hne].
  - by rewrite lookup_insert_eq.
  - by rewrite lookup_insert_ne.
Qed.

Lemma zip_with_range (c : string) (l : list (gmap string cell)) a :
  zip_with (λ row v, <[c := Some v]> row) l (range_values a (length l))
  = imap (λ i row, <[c := Some (Int (Z.of_nat (a + i)))]> row) l.
Proof.
  revert a. induction l as [|row l IH]; intros a; [done|].
  unfold range_values in *. cbn [length seq fmap list_fmap zip_with imap].
  rewrite Nat.add_0_r. f_equal. rewrite IH. apply imap_ext.
  intros i x _. cbn. do 4 f_equal. lia.
Qed.

Lemma add_serial_number_lookup df (i : nat) row' :
  rows (add_serial_number df) !! i = Some row' →
  ∃ row, rows df !! i = Some row
    ∧ row' !! SR_NO = Some (Some (Int (Z.of_nat (i + 1))))
    ∧ ∀ c, c ≠ SR_NO → row' !! c = row !! c.
Proof.
  unfold add_serial_number, insert_first. cbn [rows].
  rewrite zip_with_range, list_lookup_imap.
  case_decide; cbn [rows drop_column].
  - rewrite list_lookup_fmap. destruct (rows df !! i) as [row|]; [|done].
    cbn. intros [= <-]. exists row. split; [done|]. split.
    + rewrite lookup_insert_eq. do 3 f_equal. lia.
    + intros c Hc. by rewrite lookup_insert_ne, lookup_delete_ne.
  - destruct (rows df !! i) as [row|]; [|done].
    cbn. intros [= <-]. exists row. split; [done|]. split.
    + rewrite lookup_insert_eq. do 3 f_equal. lia.
    + intros c Hc. by rewrite lookup_insert_ne.
Qed.

Lemma length_add_serial_number df :
  length (rows (add_serial_number df)) = length (rows df).
Proof.
  unfold add_serial_number, insert_first. cbn [rows].
  rewrite zip_with_range, length_imap.
  case_decide; cbn [rows drop_column]; [apply length_fmap|done].
Qed.

Lemma filter_all {A} (P : A → Prop) `{!∀ x, Decision (P x)} (l : list A) :
  Forall P l → filter P l = l.
Proof.
  induction 1 as [|x l Hx _ IH]; [done|].
  by rewrite filter_cons_True, IH.
Qed.

Lemma elem_of_ordered_union seen ks k :
  k ∈ ordered_union seen ks ↔ k ∈ ks ∧ k ∉ seen.
Proof.
  revert seen. induction ks as [|k0 ks IH]; intros seen; cbn [ordered_union].
  - rewrite elem_of_nil. naive_solver.
  - case_decide as Hk0.
    + rewrite IH, elem_of_cons. naive_solver.
    + rewrite !elem_of_cons, IH, not_elem_of_cons.
      destruct (decide (k = k0)); naive_solver.
Qed.

Lemma columns_add_serial_number df :
  columns (add_serial_number df) = SR_NO :: filter (λ k, k ≠ SR_NO) (columns df).
Proof.
  unfold add_serial_number, insert_first. cbn [columns]. f_equal.
  case_decide as H; [done|]. cbn [columns].
  symmetry. apply filter_all, Forall_forall. by intros k Hk ->.
Qed.

(** Row [i] of a numbered output frame is record [i] of the list, with the
    ordinal [i + 1] under "Sr. No". *)
Lemma numbered_frame_lookup (rs : list record) (i : nat) row :
  rows (add_serial_number (DataFrame_of_records rs)) !! i = Some row →
  ∃ r, rs !! i = Some r
    ∧ row !! SR_NO = Some (Some (Int (Z.of_nat (i + 1))))
    ∧ same_fields r row.
Proof.
  intros (row0 & Hrow0 & Hsr & Hsame)%add_serial_number_lookup.
  cbn [DataFrame_of_records rows] in Hrow0.
  rewrite list_lookup_fmap in Hrow0.
  destruct (rs !! i) as [r|]; [|done]. injection Hrow0 as <-.
  exists r. split; [done|]. split; [done|].
  intros c Hc. by rewrite Hsame, lookup_list_to_map_record.
Qed.

Lemma numbered_frame_length (rs : list record) :
  length (rows (add_serial_number (DataFrame_of_records rs))) = length rs.
Proof.
  rewrite length_add_serial_number. cbn [DataFrame_of_records rows].
  apply length_fmap.
Qed.

Lemma numbered_frame_rows (rs : list record) :
  Forall2 same_fields rs (rows (add_serial_number (DataFrame_of_records rs))).
Proof.
  apply Forall2_same_length_lookup_2; [by rewrite numbered_frame_length|].
  intros i r row Hr (r' & Hr' & _ & Hsame)%numbered_frame_lookup.
  rewrite Hr in Hr'. by injection Hr' as ->.
Qed.

Lemma numbered_frame_elem (rs : list record) row :
  row ∈ rows (add_serial_number (DataFrame_of_records rs)) →
  ∃ r, r ∈ rs ∧ same_fields r row.
Proof.
  intros [i Hi]%list_elem_of_lookup.
  apply numbered_frame_lookup in Hi as (r & Hr & _ & Hsame).
  exists r. split; [by eapply list_elem_of_lookup_2|done].
Qed.

Lemma chipset_sp_not_sr_no : CHIPSET_SP ≠ SR_NO.
Proof. discriminate. Qed.

Lemma compare_chipsets_Ok dd :
  has_identifier_column dd →
  compare_chipsets dd
  = Ok (add_serial_number (DataFrame_of_records (added_pass ∅ (periods dd))),
        add_serial_number (DataFrame_of_records (removed_final (periods dd))),
        add_serial_number (DataFrame_of_records (reappeared_records (periods dd)))).
Proof.
  intros Hcol. unfold compare_chipsets. by rewrite (compare_records_Ok dd Hcol).
Qed.

Lemma compare_chipsets_Ok_inv dd out :
  compare_chipsets dd = Ok out → has_identifier_column dd.
Proof.
  unfold compare_chipsets. intros (recs & Hrecs & _)%bind_Ok_inv.
  by eapply compare_records_Ok_inv.
Qed.

Example sample3_years : sorted_keys sample3 = ["2021"; "2022"; "2023"].
Proof. vm_compute. reflexivity. Qed.

Example sample3_records :
  compare_records sample3
  = Ok ([mk_record (Some (Str "a")) "c1"; mk_record (Some (Str "x")) "c2";
         mk_record (Some (Str "y")) "c4"],
        [],
        [mk_record (Some (Str "a")) "c1"]).
Proof. vm_compute. reflexivity. Qed.

Example sample3_candidates :
  removed_candidates (periods sample3) = [mk_record (Some (Str "y")) "c4"].
Proof. vm_compute. reflexivity. Qed.

Example sample5_records :
  compare_records sample5
  = Ok ([mk_record (Some (Str "a")) "c1"], [],
        [mk_record (Some (Str "a")) "c1"; mk_record (Some (Str "a")) "c1"]).
Proof. vm_compute. reflexivity. Qed.

(** ** Membership in the derived identifier sets *)

Lemma elem_of_later_union ps (i : nat) v :
  v ∈ later_union ps i ↔ ∃ (j : nat) q, (i < j)%nat ∧ ps !! j = Some q ∧ v ∈ ids q.
Proof.
  unfold later_union. rewrite elem_of_union_list. split.
  - intros (X & HX & Hv). apply list_elem_of_fmap in HX as (q & -> & Hq).
    apply list_elem_of_lookup in Hq as [k Hk]. rewrite lookup_drop in Hk.
    exists (i + 1 + k)%nat, q. split; [lia|done].
  - intros (j & q & Hij & Hq & Hv). exists (ids q). split; [|done].
    apply list_elem_of_fmap. exists q. split; [done|].
    apply list_elem_of_lookup. exists (j - (i + 1))%nat.
    rewrite lookup_drop. by replace (i + 1 + (j - (i + 1)))%nat with j by lia.
Qed.

Lemma elem_of_removed_ids ps (i : nat) p v :
  ps !! i = Some p →
  v ∈ removed_ids ps i ↔
  v ∈ ids p ∧ ∀ (j : nat) q, (i < j)%nat → ps !! j = Some q → v ∉ ids q.
Proof.
  intros Hp. unfold removed_ids. rewrite Hp, elem_of_difference, elem_of_later_union.
  naive_solver.
Qed.

Lemma elem_of_reappeared_union ps v :
  v ∈ reappeared_union ps ↔
  ∃ i : nat, (2 ≤ i)%nat ∧ (i < length ps)%nat ∧ v ∈ reappeared_ids ps i.
Proof.
  unfold reappeared_union. rewrite elem_of_union_list. split.
  - intros (X & HX & Hv). apply list_elem_of_fmap in HX as (i & -> & Hi).
    apply elem_of_seq in Hi. exists i. split; [lia|]. split; [lia|done].
  - intros (i & Hi2 & Hi & Hv). exists (reappeared_ids ps i). split; [|done].
    apply list_elem_of_fmap. exists i. split; [done|]. apply elem_of_seq. lia.
Qed.

Lemma reappeared_ids_window ps (i : nat) older prev curr :
  (2 ≤ i)%nat → ps !! (i - 2)%nat = Some older → ps !! (i - 1)%nat = Some prev →
  ps !! i = Some curr →
  reappeared_ids ps i = (ids older ∖ ids prev) ∩ ids curr
  ∧ reappeared_chunk ps i = select curr ((ids older ∖ ids prev) ∩ ids curr).
Proof.
  intros _ H0 H1 H2. unfold reappeared_chunk, reappeared_ids.
  by rewrite H0, H1, H2.
Qed.

Lemma survives_iff ps r :
  survives ps r ↔
  ∃ v, record_id r = Some v ∧ (v ∉ reappeared_union ps) ∧ v ∈ first_ids ps.
Proof.
  unfold survives. rewrite cell_in_false, cell_in_true. naive_solver.
Qed.

Lemma added_pass_index U ps :
  added_pass U ps
  = mjoin (imap (λ i p, select p (ids p ∖ (U ∪ ⋃ (ids <$> take i ps)))) ps).
Proof.
  revert U. induction ps as [|p ps IH]; intros U; [done|].
  cbn [added_pass imap mjoin list_join]. f_equal.
  - cbn [take fmap list_fmap union_list foldr]. by rewrite (right_id_L ∅ (∪)).
  - rewrite IH. f_equal. apply imap_ext. intros i q _. cbn [compose].
    do 2 f_equal. cbn [take]. by rewrite fmap_cons, union_list_cons, (assoc_L (∪)).
Qed.

(** The periods are the frames of the mapping, one per key, in strictly
    ascending order of the keys. *)
Lemma periods_ascending dd :
  StronglySorted (strict String.le) (sorted_keys dd)
  ∧ (∀ y, y ∈ sorted_keys dd ↔ is_Some (dd !! y))
  ∧ Forall2 (λ y p, dd !! y = Some p) (sorted_keys dd) (periods dd).
Proof.
  split; [apply sorted_keys_ascending|].
  split; [intros y; apply elem_of_sorted_keys|apply periods_years].
Qed.

Lemma sorted_keys_head_least {V} (m : gmap string V) y1 :
  sorted_keys m !! 0%nat = Some y1 → ∀ y, is_Some (m !! y) → String.le y1 y.
Proof.
  intros Hhead y Hy%elem_of_sorted_keys.
  pose proof (sorted_keys_ascending m) as Hsorted.
  destruct (sorted_keys m) as [|y0 ys]; [done|]. injection Hhead as ->.
  apply elem_of_cons in Hy as [->|Hy]; [done|].
  apply StronglySorted_inv in Hsorted as [_ Hall].
  rewrite Forall_forall in Hall. by apply Hall.
Qed.

Lemma first_period_least dd y1 p1 :
  sorted_keys dd !! 0%nat = Some y1 → dd !! y1 = Some p1 →
  first_ids (periods dd) = ids p1 ∧ ∀ y, is_Some (dd !! y) → String.le y1 y.
Proof.
  intros Hhead Hp1. split; [|by apply sorted_keys_head_least].
  destruct (Forall2_lookup_l _ _ _ _ _ (periods_years dd) Hhead) as (p & Hp & Hyp).
  rewrite Hp1 in Hyp. injection Hyp as <-.
  by destruct (periods dd) as [|p0 ps]; [|injection Hp as ->].
Qed.

(** ** The claims *)

(** C1: Removed candidates.  With the periods in ascending order of their
    year, the loop of lines 42-47 returns the concatenation, for the
    indices [i] of all periods but the last, of the records of period [i]
    whose identifier is in [S_i] and in no later period's identifier set;
    the last period has no index in the loop. *)
Theorem removed_candidates_future_union (dd : gmap string DataFrame) :
  has_identifier_column dd →
  let ps := periods dd in
  StronglySorted (strict String.le) (sorted_keys dd)
  ∧ Forall2 (λ y p, dd !! y = Some p) (sorted_keys dd) ps
  ∧ build_history dd (sorted_keys dd) = Ok (ids <$> dd)
  ∧ (∃ removed_chipsets_set,
       removed_loop dd (ids <$> dd) (sorted_keys dd)
       = Ok (removed_chipsets_set, seq 0 (length ps - 1) ≫= removed_chunk ps))
  ∧ (∀ i : nat, i ∈ seq 0 (length ps - 1) ↔ (i + 1 < length ps)%nat)
  ∧ (∀ (i : nat) p, ps !! i = Some p →
       (∀ v, v ∈ removed_ids ps i ↔
             v ∈ ids p ∧ ∀ (j : nat) q, (i < j)%nat → ps !! j = Some q → v ∉ ids q)
       ∧ removed_chunk ps i
         = row_to_record (columns p)
             <$> filter (λ row, cell_in (cell_of CHIPSET_SP row) (removed_ids ps i) = true)
                        (rows p)
       ∧ ∀ r, r ∈ removed_chunk ps i ↔
              ∃ row v, row ∈ rows p ∧ r = row_to_record (columns p) row
                ∧ cell_of CHIPSET_SP row = Some v ∧ v ∈ ids p
                ∧ ∀ (j : nat) q, (i < j)%nat → ps !! j = Some q → v ∉ ids q).
Proof.
  intros Hcol ps.
  split; [apply sorted_keys_ascending|].
  split; [apply periods_years|].
  split; [by apply build_history_Ok|].
  split.
  { eexists. apply (removed_loop_Ok dd Hcol _ _ (periods_years dd)). }
  split.
  { intros i. rewrite elem_of_seq. lia. }
  intros i p Hp. split; [intros v; by apply elem_of_removed_ids|]. split.
  - unfold removed_chunk. by rewrite Hp.
  - intros r. unfold removed_chunk. rewrite Hp, elem_of_select.
    setoid_rewrite (elem_of_removed_ids ps i p _ Hp). naive_solver.
Qed.

Lemma removed_candidates_future_union_witness :
  has_identifier_column sample3
  ∧ ∃ removed_chipsets_set,
      removed_loop sample3 (ids <$> sample3) (sorted_keys sample3)
      = Ok (removed_chipsets_set, [mk_record (Some (Str "y")) "c4"]).
Proof.
  assert (Hcol : has_identifier_column sample3)
    by (apply (bool_decide_unpack _); vm_compute; exact I).
  split; [exact Hcol|].
  destruct (removed_candidates_future_union sample3 Hcol)
    as (_ & _ & _ & (s & Hs) & _).
  exists s. rewrite Hs. vm_compute. reflexivity.
Defined.

Lemma reappeared_union_records dd v :
  has_identifier_column dd →
  v ∈ reappeared_union (periods dd) ↔
  ∃ r, r ∈ reappeared_records (periods dd) ∧ record_id r = Some v.
Proof.
  intros Hcol. rewrite elem_of_reappeared_union. split.
  - intros (i & Hi2 & Hi & Hv).
    destruct (lookup_lt_is_Some_2 (periods dd) i Hi) as [curr Hcurr].
    assert (Hcurr_col : CHIPSET_SP ∈ columns curr).
    { assert (curr ∈ periods dd) as [y Hy]%elem_of_periods
        by (by eapply list_elem_of_lookup_2).
      by eapply Hcol. }
    assert (Hin : v ∈ ids curr).
    { unfold reappeared_ids in Hv. rewrite Hcurr in Hv.
      destruct (periods dd !! (i - 2)%nat), (periods dd !! (i - 1)%nat);
        set_solver. }
    apply elem_of_ids in Hin as (row & Hrow & Hid).
    exists (row_to_record (columns curr) row). split.
    + unfold reappeared_records. apply list_elem_of_bind. exists i. split.
      * unfold reappeared_chunk. rewrite Hcurr. apply elem_of_select.
        by exists row, v.
      * apply elem_of_seq. lia.
    + unfold record_id. by rewrite record_lookup_row, Hid.
  - intros (r & Hr & Hid). unfold reappeared_records in Hr.
    apply list_elem_of_bind in Hr as (i & Hr & Hi). apply elem_of_seq in Hi.
    exists i. split; [lia|]. split; [lia|].
    unfold reappeared_chunk in Hr.
    destruct (periods dd !! i) as [curr|] eqn:Hcurr; [|by apply elem_of_nil in Hr].
    apply elem_of_select in Hr as (row & v' & Hrow & -> & Hv' & Hin).
    assert (Hcurr_col : CHIPSET_SP ∈ columns curr).
    { assert (curr ∈ periods dd) as [y Hy]%elem_of_periods
        by (by eapply list_elem_of_lookup_2).
      by eapply Hcol. }
    unfold record_id in Hid. rewrite record_lookup_row, Hv' in Hid by done.
    by injection Hid as <-.
Qed.

(** C2: Reconciliation.  With the periods in strictly ascending order of
    their year, so that [S_1] is the identifier set of the least year,
    lines 57-58 keep exactly the Removed candidates whose identifier is
    outside the union [R] of the identifiers classified as Reappeared and
    inside [S_1], in their order; every row of the Removed output frame has
    such an identifier. *)
Theorem reconciliation_filters_removed (dd : gmap string DataFrame) :
  has_identifier_column dd →
  let ps := periods dd in
  let R := reappeared_union ps in
  StronglySorted (strict String.le) (sorted_keys dd)
  ∧ (∀ y, y ∈ sorted_keys dd ↔ is_Some (dd !! y))
  ∧ Forall2 (λ y p, dd !! y = Some p) (sorted_keys dd) ps
  ∧ (∀ y1 p1, sorted_keys dd !! 0%nat = Some y1 → dd !! y1 = Some p1 →
       first_ids ps = ids p1 ∧ ∀ y, is_Some (dd !! y) → String.le y1 y)
  ∧ ∃ removed_chipsets_set candidates added removed reappeared
    added_df removed_df reappeared_df,
    removed_loop dd (ids <$> dd) (sorted_keys dd) = Ok (removed_chipsets_set, candidates)
    ∧ reappeared_loop dd (ids <$> dd) (sorted_keys dd) = Ok (R, reappeared)
    ∧ reconcile (ids <$> dd) (sorted_keys dd) R candidates = Ok removed
    ∧ compare_records dd = Ok (added, removed, reappeared)
    ∧ compare_chipsets dd = Ok (added_df, removed_df, reappeared_df)
    ∧ removed = filter (survives ps) candidates
    ∧ (∀ r, survives ps r ↔
            ∃ v, record_id r = Some v ∧ (v ∉ R) ∧ v ∈ first_ids ps)
    ∧ (∀ v, v ∈ R ↔ ∃ r, r ∈ reappeared ∧ record_id r = Some v)
    ∧ (∀ v, v ∈ R ↔ ∃ i : nat, (2 ≤ i)%nat ∧ (i < length ps)%nat
                              ∧ v ∈ reappeared_ids ps i)
    ∧ (∀ p ps', ps = p :: ps' → first_ids ps = ids p)
    ∧ Forall2 same_fields removed (rows removed_df)
    ∧ (∀ row, row ∈ rows removed_df →
         ∃ v, cell_of CHIPSET_SP row = Some v ∧ (v ∉ R) ∧ v ∈ first_ids ps).
Proof.
  intros Hcol ps R.
  destruct (periods_ascending dd) as (Hsorted & Hkeys & Hlink).
  split; [exact Hsorted|]. split; [exact Hkeys|]. split; [exact Hlink|].
  split; [apply first_period_least|].
  exists (⋃ (removed_ids ps <$> seq 0 (length ps - 1))), (removed_candidates ps),
    (added_pass ∅ ps), (removed_final ps), (reappeared_records ps).
  do 3 eexists.
  split; [apply (removed_loop_Ok dd Hcol _ _ (periods_years dd))|].
  split; [apply (reappeared_loop_Ok dd Hcol _ _ (periods_years dd))|].
  split.
  { rewrite (reconcile_Ok dd _ ps); [done|apply periods_years| |].
    - apply Forall_forall. intros r Hr%removed_candidates_from_input.
      destruct (from_input_record_id dd r Hcol Hr) as (v & -> & _). eauto.
    - unfold removed_candidates. destruct ps; [|done]. by intros []. }
  split; [by apply compare_records_Ok|].
  split; [by apply compare_chipsets_Ok|].
  split; [done|].
  split; [apply survives_iff|].
  split; [intros v; by apply reappeared_union_records|].
  split; [apply elem_of_reappeared_union|].
  split; [by intros p ps' ->|].
  split; [apply numbered_frame_rows|].
  intros row (r & Hr & Hsame)%numbered_frame_elem.
  apply list_elem_of_filter in Hr as [Hsurv Hr].
  apply survives_iff in Hsurv as (v & Hid & HR & H1).
  exists v. split; [|done].
  unfold cell_of. rewrite (Hsame CHIPSET_SP chipset_sp_not_sr_no).
  exact Hid.
Qed.

Lemma reconciliation_filters_removed_witness :
  has_identifier_column sample4
  ∧ ∃ candidates removed,
      (∃ removed_chipsets_set,
         removed_loop sample4 (ids <$> sample4) (sorted_keys sample4)
         = Ok (removed_chipsets_set, candidates))
      ∧ (∃ added reappeared,
           compare_records sample4 = Ok (added, removed, reappeared))
      ∧ removed = filter (survives (periods sample4)) candidates.
Proof.
  assert (Hcol : has_identifier_column sample4)
    by (apply (bool_decide_unpack _); vm_compute; exact I).
  split; [exact Hcol|].
  destruct (reconciliation_filters_removed sample4 Hcol)
    as (_ & _ & _ & _ & s & cands & a & r & re & _ & _ & _
        & Hloop & _ & _ & Hrec & _ & Hr & _).
  exists cands, r. split; [by exists s|]. split; [by exists a, re|]. exact Hr.
Defined.

(** C3: Added.  Lines 34-38 are the running-union pass [added_pass]
    started from the empty set over the periods, which are the frames of the
    mapping in strictly ascending order of their year: each
    period contributes the records whose identifier is in [S_i − U], where
    [U] is the union of the identifier sets of the earlier periods, and [U]
    then grows by [S_i].  Every record of the earliest period with a
    non-null identifier is in Added. *)
Theorem added_running_union (dd : gmap string DataFrame) :
  has_identifier_column dd →
  let ps := periods dd in
  StronglySorted (strict String.le) (sorted_keys dd)
  ∧ (∀ y, y ∈ sorted_keys dd ↔ is_Some (dd !! y))
  ∧ Forall2 (λ y p, dd !! y = Some p) (sorted_keys dd) ps
  ∧ (∃ all_previous_chipsets,
     added_loop dd (ids <$> dd) (sorted_keys dd)
     = Ok (all_previous_chipsets, added_pass ∅ ps))
  ∧ (∃ removed reappeared,
       compare_records dd = Ok (added_pass ∅ ps, removed, reappeared))
  ∧ (∀ U, added_pass U [] = [])
  ∧ (∀ U p ps', added_pass U (p :: ps')
                = select p (ids p ∖ U) ++ added_pass (U ∪ ids p) ps')
  ∧ added_pass ∅ ps
    = mjoin (imap (λ i p, select p (ids p ∖ (∅ ∪ ⋃ (ids <$> take i ps)))) ps)
  ∧ (∀ p s r, r ∈ select p s ↔
       ∃ row v, row ∈ rows p ∧ r = row_to_record (columns p) row
                ∧ cell_of CHIPSET_SP row = Some v ∧ v ∈ s)
  ∧ (∀ p ps' row v, ps = p :: ps' → row ∈ rows p →
       cell_of CHIPSET_SP row = Some v →
       row_to_record (columns p) row ∈ added_pass ∅ ps).
Proof.
  intros Hcol ps.
  destruct (periods_ascending dd) as (Hsorted & Hkeys & Hlink).
  split; [exact Hsorted|]. split; [exact Hkeys|]. split; [exact Hlink|].
  split.
  { eexists. unfold added_loop.
    apply (for_each_added dd Hcol _ _ (periods_years dd)). }
  split; [do 2 eexists; by apply compare_records_Ok|].
  split; [done|]. split; [done|].
  split; [apply added_pass_index|].
  split; [intros p s r; apply elem_of_select|].
  intros p ps' row v -> Hrow Hv. cbn [added_pass].
  apply elem_of_app. left. apply elem_of_select. exists row, v.
  repeat split; [done..|].
  apply elem_of_difference. split; [|apply not_elem_of_empty].
  apply elem_of_ids. eauto.
Qed.

Lemma added_running_union_witness :
  has_identifier_column sample3
  ∧ ∃ removed reappeared,
      compare_records sample3
      = Ok ([mk_record (Some (Str "a")) "c1"; mk_record (Some (Str "x")) "c2";
             mk_record (Some (Str "y")) "c4"], removed, reappeared).
Proof.
  assert (Hcol : has_identifier_column sample3)
    by (apply (bool_decide_unpack _); vm_compute; exact I).
  split; [exact Hcol|].
  destruct (added_running_union sample3 Hcol)
    as (_ & _ & _ & _ & (r & re & Hrec) & _).
  exists r, re. rewrite Hrec. vm_compute. reflexivity.
Defined.

(** C4: Reappeared.  With the periods in strictly ascending order of their
    year, lines 51-55 return the concatenation, for every index [i] from the
    third period on, of the records of period [i] whose
    identifier is in [(S_{i-2} − S_{i-1}) ∩ S_i]; each window is evaluated
    on its own, so an identifier that comes back twice yields two events;
    with fewer than three periods nothing is Reappeared. *)
Theorem reappeared_sliding_windows :
  (∀ dd : gmap string DataFrame,
     has_identifier_column dd →
     let ps := periods dd in
     StronglySorted (strict String.le) (sorted_keys dd)
     ∧ (∀ y, y ∈ sorted_keys dd ↔ is_Some (dd !! y))
     ∧ Forall2 (λ y p, dd !! y = Some p) (sorted_keys dd) ps
     ∧ reappeared_loop dd (ids <$> dd) (sorted_keys dd)
       = Ok (reappeared_union ps, seq 2 (length ps - 2) ≫= reappeared_chunk ps)
     ∧ (∃ added removed,
          compare_records dd
          = Ok (added, removed, seq 2 (length ps - 2) ≫= reappeared_chunk ps))
     ∧ (∀ i : nat, i ∈ seq 2 (length ps - 2) ↔ (2 ≤ i)%nat ∧ (i < length ps)%nat)
     ∧ (∀ (i : nat) older prev curr,
          (2 ≤ i)%nat → ps !! (i - 2)%nat = Some older →
          ps !! (i - 1)%nat = Some prev → ps !! i = Some curr →
          reappeared_chunk ps i
          = row_to_record (columns curr)
              <$> filter (λ row, cell_in (cell_of CHIPSET_SP row)
                                   ((ids older ∖ ids prev) ∩ ids curr) = true)
                         (rows curr))
     ∧ ((length ps < 3)%nat → seq 2 (length ps - 2) ≫= reappeared_chunk ps = []))
  ∧ (has_identifier_column sample5
     ∧ ∃ added removed,
         compare_records sample5
         = Ok (added, removed,
               reappeared_chunk (periods sample5) 2 ++ reappeared_chunk (periods sample5) 4)
         ∧ reappeared_chunk (periods sample5) 2 = [mk_record (Some (Str "a")) "c1"]
         ∧ reappeared_chunk (periods sample5) 4 = [mk_record (Some (Str "a")) "c1"]).
Proof.
  split.
  - intros dd Hcol ps.
    destruct (periods_ascending dd) as (Hsorted & Hkeys & Hlink).
    split; [exact Hsorted|]. split; [exact Hkeys|]. split; [exact Hlink|].
    split; [apply (reappeared_loop_Ok dd Hcol _ _ (periods_years dd))|].
    split; [do 2 eexists; by apply compare_records_Ok|].
    split; [intros i; rewrite elem_of_seq; lia|].
    split.
    + intros i older prev curr Hi H0 H1 H2.
      by destruct (reappeared_ids_window ps i older prev curr Hi H0 H1 H2) as [_ ->].
    + intros Hlt. by replace (length ps - 2)%nat with 0%nat by lia.
  - assert (Hcol : has_identifier_column sample5)
      by (apply (bool_decide_unpack _); vm_compute; exact I).
    split; [exact Hcol|].
    exists (added_pass ∅ (periods sample5)), (removed_final (periods sample5)).
    split; [|split; vm_compute; reflexivity].
    rewrite (compare_records_Ok sample5 Hcol). vm_compute. reflexivity.
Qed.

Lemma reappeared_sliding_windows_witness :
  has_identifier_column sample3
  ∧ reappeared_loop sample3 (ids <$> sample3) (sorted_keys sample3)
    = Ok ({[ Str "a" ]}, [mk_record (Some (Str "a")) "c1"]).
Proof.
  assert (Hcol : has_identifier_column sample3)
    by (apply (bool_decide_unpack _); vm_compute; exact I).
  split; [exact Hcol|].
  destruct reappeared_sliding_windows as [Hall _].
  destruct (Hall sample3 Hcol) as (_ & _ & _ & -> & _).
  vm_compute. reflexivity.
Defined.

Lemma filter_ext_in {A} (P Q : A → Prop) `{!∀ x, Decision (P x), !∀ x, Decision (Q x)}
    (l : list A) :
  (∀ x, x ∈ l → P x ↔ Q x) → filter P l = filter Q l.
Proof.
  induction l as [|x l IH]; intros HPQ; [done|].
  assert (Hl : filter P l = filter Q l) by (apply IH; intros; apply HPQ; by right).
  destruct (decide (P x)) as [HP|HP].
  - rewrite !filter_cons_True, Hl; [done| |done]. apply HPQ; [left|done].
  - rewrite !filter_cons_False, Hl; [done| |done]. rewrite <- HPQ; [done|left].
Qed.

Lemma select_all_ids p :
  select p (ids p ∖ ∅)
  = row_to_record (columns p)
      <$> filter (λ row, is_Some (cell_of CHIPSET_SP row)) (rows p).
Proof.
  unfold select. f_equal. apply filter_ext_in. intros row Hrow.
  rewrite cell_in_true. split.
  - intros (v & -> & _). eauto.
  - intros [v Hv]. exists v. split; [done|].
    apply elem_of_difference. split; [|apply not_elem_of_empty].
    apply elem_of_ids. eauto.
Qed.

Lemma has_identifier_column_singleton y p :
  CHIPSET_SP ∈ columns p → has_identifier_column {[ y := p ]}.
Proof. intros Hp. by apply map_Forall_singleton. Qed.

(** C5, as stated, fails: with a single period in which one record has a
    null identifier, Added is not all of the period's records. *)
Lemma single_period_null_counterexample :
  to_dict_records sample_null_frame
  = [mk_record (Some (Str "a")) "c1"; mk_record None "c3"]
  ∧ compare_records sample_null = Ok ([mk_record (Some (Str "a")) "c1"], [], [])
  ∧ compare_records sample_null ≠ Ok (to_dict_records sample_null_frame, [], []).
Proof.
  split; [vm_compute; reflexivity|].
  split; [vm_compute; reflexivity|].
  vm_compute. discriminate.
Qed.

(** C5, amended: with exactly one period [P] (that has the identifier
    column), Added is the records of [P] with a non-null identifier, in
    their original order, and Removed and Reappeared are empty; when no
    identifier of [P] is null, Added is all of [P]'s records. *)
Theorem single_period_added (y : string) (p : DataFrame) :
  CHIPSET_SP ∈ columns p →
  let non_null :=
    row_to_record (columns p)
      <$> filter (λ row, is_Some (cell_of CHIPSET_SP row)) (rows p) in
  compare_records {[ y := p ]} = Ok (non_null, [], [])
  ∧ compare_chipsets {[ y := p ]}
    = Ok (add_serial_number (DataFrame_of_records non_null),
          {| columns := [SR_NO]; rows := [] |},
          {| columns := [SR_NO]; rows := [] |})
  ∧ (Forall (λ row, is_Some (cell_of CHIPSET_SP row)) (rows p) →
     non_null = to_dict_records p).
Proof.
  intros Hp non_null.
  assert (Hrec : compare_records {[ y := p ]} = Ok (non_null, [], [])).
  { rewrite compare_records_Ok by (by apply has_identifier_column_singleton).
    rewrite periods_singleton. cbn [added_pass].
    by rewrite select_all_ids, (right_id_L [] (++)). }
  split; [done|]. split.
  - unfold compare_chipsets. by rewrite Hrec.
  - intros Hall. unfold non_null, to_dict_records. by rewrite filter_all.
Qed.

Lemma single_period_added_witness :
  CHIPSET_SP ∈ columns sample_null_frame
  ∧ compare_records sample_null = Ok ([mk_record (Some (Str "a")) "c1"], [], []).
Proof.
  assert (Hp : CHIPSET_SP ∈ columns sample_null_frame)
    by (apply (bool_decide_unpack _); vm_compute; exact I).
  split; [exact Hp|].
  destruct (single_period_added "2021" sample_null_frame Hp) as (Hrec & _).
  unfold sample_null. rewrite Hrec. vm_compute. reflexivity.
Defined.

(** C6, as stated, fails for an empty identifier: the empty string is not
    NaN, [dropna] keeps it, it is a member of the period's identifier set
    and its record is classified as Added. *)
Lemma empty_identifier_counterexample :
  build_history sample_empty_string (sorted_keys sample_empty_string)
  = Ok {[ "2021" := {[ Str "" ]} ]}
  ∧ Str "" ∈ ids (mk_frame [mk_row (Some (Str "")) "c1"])
  ∧ compare_records sample_empty_string = Ok ([mk_record (Some (Str "")) "c1"], [], []).
Proof.
  split; [vm_compute; reflexivity|].
  split; [|vm_compute; reflexivity].
  apply (bool_decide_unpack _). vm_compute. exact I.
Qed.

(** C6, amended: the identifier set of a period holds exactly the distinct
    non-null (non-NaN) identifier cells of its records; the empty string is
    an identifier like any other.  A null cell is a member of no identifier
    set, and the records with a null identifier stay in the period's record
    collection. *)
Theorem identifier_sets_exclude_null (dd : gmap string DataFrame) :
  has_identifier_column dd →
  build_history dd (sorted_keys dd) = Ok (ids <$> dd)
  ∧ (∀ y p, dd !! y = Some p →
       (ids <$> dd) !! y = Some (ids p)
       ∧ ∃ col, getitem p CHIPSET_SP = Ok col
           ∧ NoDup (unique (dropna col))
           ∧ (list_to_set (unique (dropna col)) : gset value) = ids p)
  ∧ (∀ p v, v ∈ ids p ↔ ∃ row, row ∈ rows p ∧ cell_of CHIPSET_SP row = Some v)
  ∧ (∀ s : gset value, cell_in None s = false)
  ∧ (∀ p, length (to_dict_records p) = length (rows p))
  ∧ (∀ p (i : nat) row, rows p !! i = Some row →
       to_dict_records p !! i = Some (row_to_record (columns p) row)).
Proof.
  intros Hcol.
  split; [by apply build_history_Ok|].
  split.
  { intros y p Hy. split; [by rewrite lookup_fmap, Hy|].
    exists (cell_of CHIPSET_SP <$> rows p).
    split; [apply getitem_Ok; by eapply Hcol|].
    split; [apply NoDup_unique|apply list_to_set_unique]. }
  split; [apply elem_of_ids|].
  split; [done|].
  split; [intros p; apply length_fmap|].
  intros p i row Hrow. unfold to_dict_records. by rewrite list_lookup_fmap, Hrow.
Qed.

Lemma identifier_sets_exclude_null_witness :
  has_identifier_column sample3
  ∧ build_history sample3 (sorted_keys sample3)
    = Ok {[ "2021" := {[ Str "a"; Str "x" ]};
            "2022" := {[ Str "x"; Str "y" ]};
            "2023" := {[ Str "a"; Str "x" ]} ]}.
Proof.
  assert (Hcol : has_identifier_column sample3)
    by (apply (bool_decide_unpack _); vm_compute; exact I).
  split; [exact Hcol|].
  destruct (identifier_sets_exclude_null sample3 Hcol) as (-> & _).
  vm_compute. reflexivity.
Defined.

(** C7, as stated, fails: called with no periods, [compare_chipsets] raises
    nothing and returns three empty frames. *)
Lemma empty_mapping_counterexample :
  compare_chipsets ∅
  = Ok (empty_numbered_frame, empty_numbered_frame, empty_numbered_frame)
  ∧ ∀ e, compare_chipsets ∅ ≠ Raise e.
Proof. split; [vm_compute; reflexivity|]. intros e. vm_compute. discriminate. Qed.

(** C7, amended: the empty input is rejected by the caller, not by the
    comparator.  [main] reports the upload error exactly when no period was
    supplied and does not call the comparator then; the comparator itself,
    given the empty mapping, returns three empty collections. *)
Theorem empty_input_reported_by_caller :
  main_compare ∅ = UploadError "Please upload at least one CSV file."
  ∧ (∀ dd msg, main_compare dd = UploadError msg ↔
               dd = ∅ ∧ msg = "Please upload at least one CSV file.")
  ∧ compare_chipsets ∅
    = Ok (empty_numbered_frame, empty_numbered_frame, empty_numbered_frame).
Proof.
  split; [vm_compute; reflexivity|].
  split; [|vm_compute; reflexivity].
  intros dd msg. unfold main_compare. rewrite length_sorted_keys. split.
  - case_decide as Hsz.
    + case_decide; [|discriminate].
      destruct (compare_chipsets dd) as [[[a r] re]|e]; discriminate.
    + intros [= <-]. split; [|done]. apply map_size_empty_iff. lia.
  - intros [-> ->]. by rewrite map_size_empty.
Qed.

Lemma sorted_keys_unique {V} (m : gmap string V) (l : list string) :
  StronglySorted String.le l → NoDup l → (∀ y, y ∈ l ↔ is_Some (m !! y)) →
  l = sorted_keys m.
Proof.
  intros Hsorted Hnd Hl. apply (StronglySorted_unique String.le); [done| |].
  - apply StronglySorted_merge_sort; apply _.
  - apply NoDup_Permutation; [done|apply NoDup_sorted_keys|].
    intros y. by rewrite Hl, elem_of_sorted_keys.
Qed.

(** *** The hashed reading computes what the first reading computes *)

Lemma for_each_refine {A S1 S2 : Type} (abs : S1 → S2)
    (body1 : A → S1 → result S1) (body2 : A → S2 → result S2) (l : list A) (s : S1) :
  (∀ x s, result_map abs (body1 x s) = body2 x (abs s)) →
  result_map abs (for_each l body1 s) = for_each l body2 (abs s).
Proof.
  intros Hbody. revert s. induction l as [|x l IH]; intros s; cbn [for_each]; [done|].
  rewrite <- Hbody. destruct (body1 x s) as [s'|e]; bind_ok; cbn [result_map]; [apply IH|done].
Qed.

Lemma filter_result_ext {A : Type} (p q : A → result bool) (l : list A) :
  (∀ x, p x = q x) → filter_result p l = filter_result q l.
Proof.
  intros Hpq. induction l as [|x l IH]; cbn [filter_result]; [done|].
  by rewrite Hpq, IH.
Qed.

Lemma dict_get_fmap {V W : Type} (f : V → W) (m : gmap string V) (k : string) :
  dict_get (f <$> m) k = result_map f (dict_get m k).
Proof. unfold dict_get. rewrite lookup_fmap. by destruct (m !! k). Qed.

Lemma map_result_dict_get_fmap {V W : Type} (f : V → W) (m : gmap string V)
    (l : list string) :
  map_result (dict_get (f <$> m)) l = result_map (fmap f) (map_result (dict_get m) l).
Proof.
  induction l as [|k l IH]; cbn [map_result]; [done|].
  rewrite dict_get_fmap, IH.
  destruct (dict_get m k) as [v|e]; cbn [result_map]; bind_ok; [|done].
  by destruct (map_result (dict_get m) l).
Qed.

Lemma items_get_list_to_map {V : Type} (items : list (string * V)) (k : string) :
  Hashed.items_get items k = dict_get (list_to_map items) k.
Proof.
  unfold dict_get. induction items as [|[k' v] items IH]; cbn [Hashed.items_get]; [done|].
  cbn [list_to_map foldr]. case_decide as Hk.
  - subst k'. by rewrite lookup_insert_eq.
  - by rewrite lookup_insert_ne.
Qed.

Lemma sorted_items_keys {V : Type} (items : list (string * V)) :
  NoDup items.*1 →
  merge_sort String.le items.*1 = sorted_keys (list_to_map items).
Proof.
  intros Hnd. apply sorted_keys_unique.
  - apply StronglySorted_merge_sort; apply _.
  - by rewrite merge_sort_Permutation.
  - intros y. rewrite merge_sort_Permutation, <- not_eq_None_Some.
    pose proof (not_elem_of_list_to_map (M := gmap string) items y) as Hy.
    destruct (decide (y ∈ items.*1)); naive_solver.
Qed.

Section refinement.
Variable set_order : list value → list value.
Hypothesis set_order_perm : ∀ l, set_order l ≡ₚ l.

Lemma elem_of_set_order l v : v ∈ set_order l ↔ v ∈ l.
Proof. by rewrite set_order_perm. Qed.

Lemma abs_set_of l :
  list_to_set (Hashed.set_of set_order l) =@{gset value} list_to_set l.
Proof.
  apply set_eq. intros v. unfold Hashed.set_of.
  by rewrite !elem_of_list_to_set, elem_of_set_order, elem_of_remove_dups.
Qed.

Lemma abs_set_difference a b :
  list_to_set (Hashed.set_difference set_order a b)
  =@{gset value} list_to_set a ∖ list_to_set b.
Proof.
  apply set_eq. intros v. unfold Hashed.set_difference.
  rewrite elem_of_difference, !elem_of_list_to_set, elem_of_set_order.
  by rewrite list_elem_of_filter, (comm and).
Qed.

Lemma abs_set_update a b :
  list_to_set (Hashed.set_update set_order a b)
  =@{gset value} list_to_set a ∪ list_to_set b.
Proof.
  apply set_eq. intros v. unfold Hashed.set_update.
  rewrite elem_of_union, !elem_of_list_to_set, elem_of_set_order.
  by rewrite elem_of_remove_dups, elem_of_app.
Qed.

Lemma abs_set_union_all ls :
  list_to_set (Hashed.set_union_all set_order ls)
  =@{gset value} ⋃ (list_to_set <$> ls).
Proof.
  apply set_eq. intros v. unfold Hashed.set_union_all.
  rewrite elem_of_list_to_set, elem_of_set_order, elem_of_remove_dups.
  rewrite elem_of_union_list.
  induction ls as [|l ls IH]; cbn [concat fmap list_fmap].
  - rewrite elem_of_nil. split; [done|]. by intros (X & ?%elem_of_nil & _).
  - rewrite elem_of_app. split.
    + intros [Hv|Hv].
      * exists (list_to_set l). split; [by left|]. by apply elem_of_list_to_set.
      * apply IH in Hv as (X & HX & Hv). exists X. split; [by right|done].
    + intros (X & [->|HX]%elem_of_cons & Hv).
      * left. by apply elem_of_list_to_set in Hv.
      * right. apply IH. by exists X.
Qed.

Lemma abs_set_intersection a b :
  list_to_set (Hashed.set_intersection set_order a b)
  =@{gset value} list_to_set a ∩ list_to_set b.
Proof.
  apply set_eq. intros v. unfold Hashed.set_intersection.
  rewrite elem_of_intersection, !elem_of_list_to_set, elem_of_set_order.
  by rewrite list_elem_of_filter, (comm and).
Qed.

Lemma abs_cell_in x (s : list value) :
  Hashed.cell_in x s = cell_in x (list_to_set s).
Proof.
  destruct x as [v|]; [|done]. cbn. apply bool_decide_ext.
  by rewrite elem_of_list_to_set.
Qed.

Lemma abs_isin col (s : list value) :
  Hashed.isin col s = isin col (list_to_set s).
Proof. unfold Hashed.isin, isin. apply list_fmap_ext. intros _ x _. apply abs_cell_in. Qed.

Variable items : list (string * DataFrame).

Lemma abs_history_step y h :
  result_map abs_history (Hashed.history_step set_order items y h)
  = history_step (list_to_map items) y (abs_history h).
Proof.
  unfold Hashed.history_step, history_step. rewrite items_get_list_to_map.
  destruct (dict_get (list_to_map items) y) as [df|e]; bind_ok; [|done].
  destruct (getitem df CHIPSET_SP) as [col|e]; bind_ok; [|done].
  cbn [result_map]. unfold abs_history. by rewrite fmap_insert, abs_set_of.
Qed.

Lemma abs_build_history ys :
  result_map abs_history (Hashed.build_history set_order items ys)
  = build_history (list_to_map items) ys.
Proof.
  unfold Hashed.build_history, build_history.
  rewrite (for_each_refine abs_history _ (history_step (list_to_map items)))
    by apply abs_history_step.
  unfold abs_history. by rewrite fmap_empty.
Qed.

Lemma abs_records_isin y (s : list value) :
  Hashed.records_isin items y s = records_isin (list_to_map items) y (list_to_set s).
Proof.
  unfold Hashed.records_isin, records_isin. rewrite items_get_list_to_map.
  destruct (dict_get (list_to_map items) y) as [df|e]; bind_ok; [|done].
  destruct (getitem df CHIPSET_SP) as [col|e]; bind_ok; [|done].
  by rewrite abs_isin.
Qed.

Variable h : gmap string (list value).

Lemma abs_added_step y st :
  result_map abs_state (Hashed.added_step set_order items h y st)
  = added_step (list_to_map items) (abs_history h) y (abs_state st).
Proof.
  destruct st as [U added]. unfold Hashed.added_step, added_step, abs_state.
  cbn [fst snd]. unfold abs_history. rewrite dict_get_fmap.
  destruct (dict_get h y) as [cur|e]; cbn [result_map]; bind_ok; [|done].
  rewrite abs_records_isin, abs_set_difference.
  destruct (records_isin _ _ _) as [recs|e]; bind_ok; [|done].
  cbn [result_map fst snd]. by rewrite abs_set_update.
Qed.

Lemma abs_added_loop ys :
  result_map abs_state (Hashed.added_loop set_order items h ys)
  = added_loop (list_to_map items) (abs_history h) ys.
Proof.
  unfold Hashed.added_loop, added_loop.
  by rewrite (for_each_refine abs_state _
                (added_step (list_to_map items) (abs_history h)))
    by apply abs_added_step.
Qed.

Variable ys : list string.

Lemma abs_removed_step i st :
  result_map abs_state (Hashed.removed_step set_order items h ys i st)
  = removed_step (list_to_map items) (abs_history h) ys i (abs_state st).
Proof.
  destruct st as [R removed]. unfold Hashed.removed_step, removed_step, abs_state.
  cbn [fst snd].
  destruct (list_get ys i) as [prev_year|e]; bind_ok; [|done].
  unfold abs_history. rewrite map_result_dict_get_fmap.
  destruct (map_result (dict_get h) _) as [later|e]; cbn [result_map]; bind_ok; [|done].
  rewrite dict_get_fmap.
  destruct (dict_get h prev_year) as [cur|e]; cbn [result_map]; bind_ok; [|done].
  rewrite abs_records_isin, abs_set_difference, abs_set_union_all.
  destruct (records_isin _ _ _) as [recs|e]; bind_ok; [|done].
  cbn [result_map fst snd].
  by rewrite abs_set_update, abs_set_difference, abs_set_union_all.
Qed.

Lemma abs_removed_loop :
  result_map abs_state (Hashed.removed_loop set_order items h ys)
  = removed_loop (list_to_map items) (abs_history h) ys.
Proof.
  unfold Hashed.removed_loop, removed_loop.
  by rewrite (for_each_refine abs_state _
                (removed_step (list_to_map items) (abs_history h) ys))
    by apply abs_removed_step.
Qed.

Lemma abs_reappeared_step i st :
  result_map abs_state (Hashed.reappeared_step set_order items h ys i st)
  = reappeared_step (list_to_map items) (abs_history h) ys i (abs_state st).
Proof.
  destruct st as [R reappeared].
  unfold Hashed.reappeared_step, reappeared_step, abs_state. cbn [fst snd].
  destruct (list_get ys (i - 2)) as [older_year|e]; bind_ok; [|done].
  destruct (list_get ys (i - 1)) as [prev_year|e]; bind_ok; [|done].
  destruct (list_get ys i) as [curr_year|e]; bind_ok; [|done].
  unfold abs_history. rewrite !dict_get_fmap.
  destruct (dict_get h older_year) as [older|e]; cbn [result_map]; bind_ok; [|done].
  destruct (dict_get h prev_year) as [prev|e]; cbn [result_map]; bind_ok; [|done].
  destruct (dict_get h curr_year) as [curr|e]; cbn [result_map]; bind_ok; [|done].
  rewrite abs_records_isin, abs_set_intersection, abs_set_difference.
  destruct (records_isin _ _ _) as [recs|e]; bind_ok; [|done].
  cbn [result_map fst snd].
  by rewrite abs_set_update, abs_set_intersection, abs_set_difference.
Qed.

Lemma abs_reappeared_loop :
  result_map abs_state (Hashed.reappeared_loop set_order items h ys)
  = reappeared_loop (list_to_map items) (abs_history h) ys.
Proof.
  unfold Hashed.reappeared_loop, reappeared_loop.
  by rewrite (for_each_refine abs_state _
                (reappeared_step (list_to_map items) (abs_history h) ys))
    by apply abs_reappeared_step.
Qed.

Lemma abs_reconcile (R : list value) removed :
  Hashed.reconcile h ys R removed
  = reconcile (abs_history h) ys (list_to_set R) removed.
Proof.
  unfold Hashed.reconcile, reconcile.
  rewrite (filter_result_ext _
    (λ entry, x ← record_get entry CHIPSET_SP;
              Ok (negb (cell_in x (list_to_set R))))).
  2:{ intros entry. destruct (record_get entry CHIPSET_SP) as [x|e]; bind_ok; [|done].
      by rewrite abs_cell_in. }
  destruct (filter_result _ removed) as [removed'|e]; bind_ok; [|done].
  apply filter_result_ext. intros entry.
  destruct (record_get entry CHIPSET_SP) as [x|e]; bind_ok; [|done].
  destruct (list_get ys 0) as [first_year|e]; bind_ok; [|done].
  unfold abs_history. rewrite dict_get_fmap.
  destruct (dict_get h first_year) as [first|e]; cbn [result_map]; bind_ok; [|done].
  by rewrite abs_cell_in.
Qed.
End refinement.

Lemma hashed_compare_records set_order (items : list (string * DataFrame)) :
  (∀ l, set_order l ≡ₚ l) → NoDup items.*1 →
  Hashed.compare_records set_order items = compare_records (list_to_map items).
Proof.
  intros Hperm Hnd. unfold Hashed.compare_records, compare_records. cbv zeta.
  rewrite <- (sorted_items_keys items Hnd).
  set (ys := merge_sort String.le items.*1).
  rewrite <- (abs_build_history set_order Hperm items ys).
  destruct (Hashed.build_history set_order items ys) as [h|e];
    cbn [result_map]; bind_ok; [|done].
  rewrite <- (abs_added_loop set_order Hperm items h ys).
  destruct (Hashed.added_loop set_order items h ys) as [[U added]|e];
    cbn [result_map]; bind_ok; [|done].
  rewrite <- (abs_removed_loop set_order Hperm items h ys).
  destruct (Hashed.removed_loop set_order items h ys) as [[R removed]|e];
    cbn [result_map]; bind_ok; [|done].
  rewrite <- (abs_reappeared_loop set_order Hperm items h ys).
  destruct (Hashed.reappeared_loop set_order items h ys) as [[R' reappeared]|e];
    cbn [result_map]; bind_ok; [|done].
  unfold abs_state. cbn [fst snd].
  by rewrite (abs_reconcile h ys R' removed).
Qed.

Lemma hashed_compare_chipsets set_order (items : list (string * DataFrame)) :
  (∀ l, set_order l ≡ₚ l) → NoDup items.*1 →
  Hashed.compare_chipsets set_order items = compare_chipsets (list_to_map items).
Proof.
  intros Hperm Hnd. unfold Hashed.compare_chipsets, compare_chipsets.
  by rewrite (hashed_compare_records set_order items Hperm Hnd).
Qed.

(** C8: Determinism.  Two invocations of the comparator on the same
    mapping give the same result -- the same three frames, row for row, or
    the same exception -- whatever order the hash seed of either process
    gives to the elements of the sets the comparator builds, and whatever
    the order in which the years were put into the mapping: the code
    iterates over no set, and sorts the years before anything else.  The
    result is the one of the reading over finite sets and maps, which the
    other theorems are about. *)
Theorem compare_deterministic (order1 order2 : list value → list value)
    (items1 items2 : list (string * DataFrame)) :
  (∀ l, order1 l ≡ₚ l) → (∀ l, order2 l ≡ₚ l) →
  NoDup items1.*1 → items1 ≡ₚ items2 →
  Hashed.compare_chipsets order1 items1 = Hashed.compare_chipsets order2 items2
  ∧ Hashed.compare_chipsets order1 items1 = compare_chipsets (list_to_map items1).
Proof.
  intros Ho1 Ho2 Hnd Hperm.
  assert (Hnd2 : NoDup items2.*1) by (by rewrite <- Hperm).
  rewrite (hashed_compare_chipsets order1 items1 Ho1 Hnd).
  rewrite (hashed_compare_chipsets order2 items2 Ho2 Hnd2).
  split; [|done].
  by rewrite (list_to_map_proper items1 items2 Hnd Hperm).
Qed.

Lemma compare_deterministic_witness :
  Hashed.compare_chipsets id
    [("2022", mk_frame [mk_row (Some (Str "x")) "c2"; mk_row (Some (Str "y")) "c4"]);
     ("2021", mk_frame [mk_row (Some (Str "a")) "c1"; mk_row (Some (Str "x")) "c2"])]
  = Hashed.compare_chipsets reverse
      [("2021", mk_frame [mk_row (Some (Str "a")) "c1"; mk_row (Some (Str "x")) "c2"]);
       ("2022", mk_frame [mk_row (Some (Str "x")) "c2"; mk_row (Some (Str "y")) "c4"])].
Proof.
  refine (proj1 (compare_deterministic id reverse _ _ _ _ _ _)).
  - intros l. reflexivity.
  - intros l. apply reverse_Permutation.
  - apply (bool_decide_unpack _). vm_compute. exact I.
  - apply perm_swap.
Defined.

(** C9, as stated, fails for a field named "Sr. No": [add_serial_number]
    drops the input column of that name and writes the ordinal instead. *)
Lemma sr_no_field_counterexample :
  ∃ row_out : gmap string cell,
    compare_chipsets sample_sr_no
    = Ok ({| columns := [SR_NO; CHIPSET_SP]; rows := [row_out] |},
          empty_numbered_frame, empty_numbered_frame)
    ∧ sample_sr_no_row !! SR_NO = Some (Some (Str "7"))
    ∧ row_out !! SR_NO = Some (Some (Int 1))
    ∧ row_out !! SR_NO ≠ sample_sr_no_row !! SR_NO.
Proof.
  exists {[ SR_NO := Some (Int 1); CHIPSET_SP := Some (Str "a") ]}.
  split; [vm_compute; reflexivity|].
  split; [vm_compute; reflexivity|].
  split; [vm_compute; reflexivity|].
  vm_compute. discriminate.
Qed.

Lemma numbered_frame_columns (rs : list record) r c :
  r ∈ rs → c ∈ r.*1 → c ∈ columns (add_serial_number (DataFrame_of_records rs)).
Proof.
  intros Hr Hc. rewrite columns_add_serial_number.
  destruct (decide (c = SR_NO)) as [->|Hne]; [by left|]. right.
  apply list_elem_of_filter. split; [done|].
  cbn [DataFrame_of_records columns]. apply elem_of_ordered_union.
  split; [|apply not_elem_of_nil].
  apply list_elem_of_bind. by exists r.
Qed.

Lemma row_to_record_keys cols row : (row_to_record cols row).*1 = cols.
Proof.
  unfold row_to_record. rewrite <- list_fmap_compose.
  rewrite <- (list_fmap_id cols) at 2. by apply list_fmap_ext.
Qed.

Lemma output_row_origin dd (rs : list record) row :
  has_identifier_column dd →
  (∀ r, r ∈ rs → from_input (periods dd) r) →
  row ∈ rows (add_serial_number (DataFrame_of_records rs)) →
  ∃ y p row_in, dd !! y = Some p ∧ row_in ∈ rows p
    ∧ (∀ c, c ∈ columns p →
            c ∈ columns (add_serial_number (DataFrame_of_records rs)))
    ∧ ∀ c, c ∈ columns p → c ≠ SR_NO → is_text (cell_of c row_in) →
           row !! c = Some (cell_of c row_in).
Proof.
  intros Hcol Hrs (r & Hr & Hsame)%numbered_frame_elem.
  destruct (Hrs r Hr) as (p & row_in & v & Hp & Hrow & -> & Hv).
  apply elem_of_periods in Hp as [y Hy].
  exists y, p, row_in. split; [done|]. split; [done|]. split.
  - intros c Hc. eapply numbered_frame_columns; [exact Hr|].
    by rewrite row_to_record_keys.
  - intros c Hc Hne _. rewrite (Hsame c Hne). by apply record_lookup_row.
Qed.

Lemma record_origin dd r :
  from_input (periods dd) r →
  ∃ y p row_in, dd !! y = Some p ∧ row_in ∈ rows p
    ∧ r = row_to_record (columns p) row_in.
Proof.
  intros (p & row_in & v & Hp & Hrow & -> & _).
  apply elem_of_periods in Hp as [y Hy]. by exists y, p, row_in.
Qed.

(** C9, amended: the records of the three lists are records of input rows,
    field for field.  In the three frames made of them, every row comes
    from a row of some input period: the frame has all the columns of that
    period, and under each of them other than "Sr. No" the row holds the
    input row's cell whenever that cell is text or NaN (an integer cell may
    be stored as a float of the same number by [pd.DataFrame], which is not
    described here); under "Sr. No" the output row holds its 1-based
    position in its frame, whatever the input had there. *)
Theorem fields_carried_through (dd : gmap string DataFrame) :
  (has_identifier_column dd ↔ ∃ out, compare_chipsets dd = Ok out)
  ∧ ∀ added_df removed_df reappeared_df,
      compare_chipsets dd = Ok (added_df, removed_df, reappeared_df) →
      (∃ added removed reappeared,
          compare_records dd = Ok (added, removed, reappeared)
          ∧ ∀ r, r ∈ added ∨ r ∈ removed ∨ r ∈ reappeared →
                 ∃ y p row_in, dd !! y = Some p ∧ row_in ∈ rows p
                   ∧ r = row_to_record (columns p) row_in)
      ∧ (∀ df row,
           df = added_df ∨ df = removed_df ∨ df = reappeared_df →
           row ∈ rows df →
           ∃ y p row_in, dd !! y = Some p ∧ row_in ∈ rows p
             ∧ (∀ c, c ∈ columns p → c ∈ columns df)
             ∧ ∀ c, c ∈ columns p → c ≠ SR_NO → is_text (cell_of c row_in) →
                    row !! c = Some (cell_of c row_in))
      ∧ (∀ df (i : nat) row,
           df = added_df ∨ df = removed_df ∨ df = reappeared_df →
           rows df !! i = Some row →
           SR_NO ∈ columns df
           ∧ row !! SR_NO = Some (Some (Int (Z.of_nat (i + 1))))).
Proof.
  split.
  { split.
    - intros Hcol. eexists. by apply compare_chipsets_Ok.
    - intros [out Hout]. by eapply compare_chipsets_Ok_inv. }
  intros added_df removed_df reappeared_df Hout.
  pose proof (compare_chipsets_Ok_inv dd _ Hout) as Hcol.
  rewrite (compare_chipsets_Ok dd Hcol) in Hout. injection Hout as <- <- <-.
  split; [|split].
  - eexists _, _, _. split; [by apply compare_records_Ok|].
    intros r [Hr|[Hr|Hr]]; apply record_origin.
    + by eapply added_pass_from_input.
    + by apply removed_final_from_input.
    + by apply reappeared_records_from_input.
  - intros df row [-> | [-> | ->]] Hrow.
    + apply (output_row_origin dd _ row Hcol (added_pass_from_input _ ∅) Hrow).
    + apply (output_row_origin dd _ row Hcol (removed_final_from_input _) Hrow).
    + apply (output_row_origin dd _ row Hcol (reappeared_records_from_input _) Hrow).
  - intros df i row [-> | [-> | ->]] Hrow;
      (split; [rewrite columns_add_serial_number; by left|]);
      by apply numbered_frame_lookup in Hrow as (_ & _ & ? & _).
Qed.

Lemma fields_carried_through_witness :
  ∃ added_df removed_df reappeared_df,
    compare_chipsets sample3 = Ok (added_df, removed_df, reappeared_df)
    ∧ length (rows added_df) = 3%nat
    ∧ ∀ row, row ∈ rows added_df →
        "Customer" ∈ columns added_df
        ∧ ∃ y p row_in, sample3 !! y = Some p ∧ row_in ∈ rows p
            ∧ row !! "Customer" = Some (cell_of "Customer" row_in)
            ∧ row !! CHIPSET_SP = Some (cell_of CHIPSET_SP row_in).
Proof.
  assert (Hcol : has_identifier_column sample3)
    by (apply (bool_decide_unpack _); vm_compute; exact I).
  assert (Htext : map_Forall (λ _ p,
            "Customer" ∈ columns p ∧ CHIPSET_SP ∈ columns p
            ∧ Forall (λ r, is_text (cell_of "Customer" r)
                           ∧ is_text (cell_of CHIPSET_SP r)) (rows p)) sample3)
    by (apply (bool_decide_unpack _); vm_compute; exact I).
  pose proof (compare_chipsets_Ok sample3 Hcol) as Hout.
  eexists _, _, _. split; [exact Hout|].
  split; [vm_compute; reflexivity|].
  destruct (fields_carried_through sample3) as [_ Hall].
  destruct (Hall _ _ _ Hout) as (_ & Hrows & _).
  intros row Hrow.
  destruct (Hrows _ row (or_introl eq_refl) Hrow)
    as (y & p & row_in & Hy & Hin & Hcols & Hsame).
  destruct (Htext y p Hy) as (Hc1 & Hc2 & Hcells).
  rewrite Forall_forall in Hcells. destruct (Hcells row_in Hin) as [Ht1 Ht2].
  split; [by apply Hcols|].
  exists y, p, row_in. split; [done|]. split; [done|]. split.
  - by apply Hsame.
  - by apply Hsame.
Defined.

(** C10: every row of the Added, Removed and Reappeared outputs has a
    non-null identifier; so has every record of the three lists they are
    built from. *)
Theorem outputs_have_identifier (dd : gmap string DataFrame) :
  (has_identifier_column dd ↔ ∃ out, compare_chipsets dd = Ok out)
  ∧ ∀ added_df removed_df reappeared_df,
      compare_chipsets dd = Ok (added_df, removed_df, reappeared_df) →
      (∀ row, row ∈ rows added_df ∨ row ∈ rows removed_df ∨ row ∈ rows reappeared_df →
         ∃ v, row !! CHIPSET_SP = Some (Some v))
      ∧ ∃ added removed reappeared,
          compare_records dd = Ok (added, removed, reappeared)
          ∧ ∀ r, r ∈ added ∨ r ∈ removed ∨ r ∈ reappeared →
                 ∃ v, record_lookup CHIPSET_SP r = Some (Some v).
Proof.
  split.
  { split.
    - intros Hcol. eexists. by apply compare_chipsets_Ok.
    - intros [out Hout]. by eapply compare_chipsets_Ok_inv. }
  intros added_df removed_df reappeared_df Hout.
  pose proof (compare_chipsets_Ok_inv dd _ Hout) as Hcol.
  rewrite (compare_chipsets_Ok dd Hcol) in Hout. injection Hout as <- <- <-.
  assert (Hrec : ∀ r, from_input (periods dd) r →
                      ∃ v, record_lookup CHIPSET_SP r = Some (Some v)).
  { intros r Hr. destruct (from_input_record_id dd r Hcol Hr) as (v & ? & _). eauto. }
  assert (Hrow : ∀ rs row, (∀ r, r ∈ rs → from_input (periods dd) r) →
            row ∈ rows (add_serial_number (DataFrame_of_records rs)) →
            ∃ v, row !! CHIPSET_SP = Some (Some v)).
  { intros rs row Hrs (r & Hr & Hsame)%numbered_frame_elem.
    destruct (Hrec r (Hrs r Hr)) as [v Hv]. exists v.
    by rewrite (Hsame CHIPSET_SP chipset_sp_not_sr_no). }
  split.
  - intros row [H|[H|H]]; (eapply Hrow; [|exact H]).
    + apply added_pass_from_input.
    + apply removed_final_from_input.
    + apply reappeared_records_from_input.
  - do 3 eexists. split; [by apply compare_records_Ok|].
    intros r [H|[H|H]]; apply Hrec.
    + by eapply added_pass_from_input.
    + by apply removed_final_from_input.
    + by apply reappeared_records_from_input.
Qed.

Lemma outputs_have_identifier_witness :
  ∃ added_df removed_df reappeared_df,
    compare_chipsets sample_null = Ok (added_df, removed_df, reappeared_df)
    ∧ length (rows sample_null_frame) = 2%nat
    ∧ length (rows added_df) = 1%nat
    ∧ ∀ row, row ∈ rows added_df → ∃ v, row !! CHIPSET_SP = Some (Some v).
Proof.
  exists {| columns := [SR_NO; CHIPSET_SP; "Customer"];
            rows := [ <[ SR_NO := Some (Int 1) ]> (mk_row (Some (Str "a")) "c1") ] |},
    empty_numbered_frame, empty_numbered_frame.
  assert (Hout : compare_chipsets sample_null
                 = Ok ({| columns := [SR_NO; CHIPSET_SP; "Customer"];
                          rows := [ <[ SR_NO := Some (Int 1) ]>
                                      (mk_row (Some (Str "a")) "c1") ] |},
                       empty_numbered_frame, empty_numbered_frame))
    by (vm_compute; reflexivity).
  split; [exact Hout|]. split; [reflexivity|]. split; [reflexivity|].
  destruct (outputs_have_identifier sample_null) as [_ Hall].
  destruct (Hall _ _ _ Hout) as [Hrows _].
  intros row Hrow. apply Hrows. by left.
Defined.


(** ** Ingestion: [load_data] *)

Lemma lookup_filter_keys (keep : string → bool) (m : gmap string cell) c :
  filter (λ kv : string * cell, keep kv.1 = true) m !! c
  = if keep c then m !! c else None.
Proof.
  rewrite map_lookup_filter. destruct (m !! c) as [x|] eqn:Hx; cbn.
  - destruct (keep c) eqn:Hk.
    + by rewrite option_guard_True.
    + by rewrite option_guard_False.
  - by destruct (keep c).
Qed.

Lemma filter_keys_idem (keep : string → bool) (m : gmap string cell) :
  filter (λ kv : string * cell, keep kv.1 = true)
    (filter (λ kv : string * cell, keep kv.1 = true) m)
  = filter (λ kv : string * cell, keep kv.1 = true) m.
Proof.
  apply map_eq. intros c. rewrite !lookup_filter_keys. by destruct (keep c).
Qed.

Lemma not_unnamed_S_NO : not_unnamed S_NO = true.
Proof. reflexivity. Qed.

Lemma not_unnamed_CHIPSET_SP : not_unnamed CHIPSET_SP = true.
Proof. reflexivity. Qed.

Lemma load_data_columns file df :
  load_data (Some file) = Some df →
  columns df
  = filter (λ k, not_unnamed k = true ∧ k ≠ S_NO) (columns (file_table file)).
Proof.
  unfold load_data. intros [= <-]. case_decide as Hs; cbn [columns loc_columns drop_column].
  - by rewrite list_filter_filter, (list_filter_iff _ (λ k, not_unnamed k = true ∧ k ≠ S_NO))
      by naive_solver.
  - apply filter_ext_in. intros k Hk. split; [|naive_solver].
    intros Hkeep. split; [done|]. intros ->. apply Hs.
    by apply list_elem_of_filter.
Qed.

Lemma load_data_row file df (i : nat) row :
  load_data (Some file) = Some df →
  rows (file_table file) !! i = Some row →
  ∃ row', rows df !! i = Some row'
    ∧ ∀ c, row' !! c = if decide (c ∈ columns df) then row !! c
                       else if decide (c ∈ columns (file_table file)) then None
                       else row' !! c.
Proof.
  intros Hload Hrow. pose proof (load_data_columns _ _ Hload) as Hcols.
  unfold load_data in Hload. injection Hload as <-.
  case_decide as Hs; cbn [rows columns loc_columns drop_column] in *.
  - exists (delete S_NO (filter (λ kv : string * cell, not_unnamed kv.1 = true) row)).
    split; [by rewrite !list_lookup_fmap, Hrow|].
    intros c. rewrite Hcols. case_decide as Hc.
    + apply list_elem_of_filter in Hc as [[Hk Hne] _].
      by rewrite lookup_delete_ne, lookup_filter_keys, Hk.
    + case_decide as Hc'; [|done].
      destruct (decide (c = S_NO)) as [->|Hne]; [by rewrite lookup_delete_eq|].
      rewrite lookup_delete_ne, lookup_filter_keys by done.
      destruct (not_unnamed c) eqn:Hk; [|done].
      destruct Hc. by apply list_elem_of_filter.
  - exists (filter (λ kv : string * cell, not_unnamed kv.1 = true) row).
    split; [by rewrite list_lookup_fmap, Hrow|].
    intros c. rewrite Hcols. case_decide as Hc.
    + apply list_elem_of_filter in Hc as [[Hk Hne] _].
      by rewrite lookup_filter_keys, Hk.
    + case_decide as Hc'; [|done].
      rewrite lookup_filter_keys.
      destruct (not_unnamed c) eqn:Hk; [|done].
      destruct (decide (c = S_NO)) as [->|Hne].
      * destruct Hs. by apply list_elem_of_filter.
      * destruct Hc. by apply list_elem_of_filter.
Qed.

Lemma load_data_length file df :
  load_data (Some file) = Some df →
  length (rows df) = length (rows (file_table file)).
Proof.
  unfold load_data. intros [= <-].
  case_decide; cbn [rows loc_columns drop_column]; by rewrite !length_fmap.
Qed.

(** X1: [load_data] returns, for every file, the table without the columns
    whose label starts with "Unnamed" and without "S.No": the other
    columns keep their order, the rows their number, order and cells. *)
Theorem load_data_drops_index_columns (file : UploadedFile) :
  load_data None = None
  ∧ ∃ df, load_data (Some file) = Some df
    ∧ columns df
      = filter (λ k, not_unnamed k = true ∧ k ≠ S_NO) (columns (file_table file))
    ∧ (∀ k, not_unnamed k = true ↔ String.prefix "Unnamed" k = false)
    ∧ length (rows df) = length (rows (file_table file))
    ∧ ∀ (i : nat) row, rows (file_table file) !! i = Some row →
        ∃ row', rows df !! i = Some row'
          ∧ (∀ c, c ∈ columns df → row' !! c = row !! c)
          ∧ (∀ c, c ∈ columns (file_table file) → c ∉ columns df → row' !! c = None).
Proof.
  split; [done|].
  destruct (load_data (Some file)) as [df|] eqn:Hload; [|discriminate].
  exists df. split; [done|].
  split; [by apply load_data_columns|].
  split; [intros k; unfold not_unnamed; by destruct (String.prefix _ _)|].
  split; [by apply load_data_length|].
  intros i row Hrow.
  destruct (load_data_row file df i row Hload Hrow) as (row' & Hrow' & Hcells).
  exists row'. split; [done|]. split.
  - intros c Hc. by rewrite Hcells, decide_True.
  - intros c Hc Hnc. by rewrite Hcells, decide_False, decide_True.
Qed.

Lemma load_data_series file df c :
  load_data (Some file) = Some df →
  not_unnamed c = true → c ≠ S_NO → c ∈ columns (file_table file) →
  cell_of c <$> rows df = cell_of c <$> rows (file_table file).
Proof.
  intros Hload Hk Hne Hin.
  assert (Hc : c ∈ columns df).
  { rewrite (load_data_columns _ _ Hload). by apply list_elem_of_filter. }
  apply list_eq_same_length with (length (rows df)).
  - by rewrite length_fmap, (load_data_length _ _ Hload).
  - by rewrite length_fmap.
  - intros i x y _. rewrite !list_lookup_fmap.
    destruct (rows (file_table file) !! i) as [row|] eqn:Hrow; [|done].
    destruct (load_data_row file df i row Hload Hrow) as (row' & -> & Hcells).
    cbn. intros [= <-] [= <-]. unfold cell_of. by rewrite Hcells, decide_True.
Qed.

(** X2: what the comparator reads is not touched by the cleanup of
    [load_data]: a column that is neither "Unnamed..." nor "S.No" is there
    after loading exactly when it was in the parsed table, with the same
    series; so the identifier column and the identifier set are those of
    the parsed table, and a "Sr. No" column is kept. *)
Theorem load_data_preserves_identifiers (file : UploadedFile) (df : DataFrame) :
  load_data (Some file) = Some df →
  (∀ c, not_unnamed c = true → c ≠ S_NO →
     getitem df c = getitem (file_table file) c)
  ∧ (CHIPSET_SP ∈ columns df ↔ CHIPSET_SP ∈ columns (file_table file))
  ∧ (SR_NO ∈ columns df ↔ SR_NO ∈ columns (file_table file))
  ∧ (CHIPSET_SP ∈ columns (file_table file) → ids df = ids (file_table file)).
Proof.
  intros Hload.
  assert (Hin : ∀ c, not_unnamed c = true → c ≠ S_NO →
                     c ∈ columns df ↔ c ∈ columns (file_table file)).
  { intros c Hk Hne. rewrite (load_data_columns _ _ Hload), list_elem_of_filter.
    naive_solver. }
  split.
  { intros c Hk Hne. unfold getitem.
    destruct (decide (c ∈ columns (file_table file))) as [Hc|Hc].
    - rewrite decide_True by (by apply Hin). f_equal. by apply load_data_series.
    - rewrite decide_False; [done|]. by rewrite Hin. }
  split; [by apply Hin|]. split; [by apply Hin|].
  intros Hc. unfold ids. by rewrite (load_data_series file df CHIPSET_SP).
Qed.

(** X3: loading is idempotent: a table that came out of [load_data] comes
    out of it unchanged when it is loaded again. *)
Theorem load_data_idempotent (file : UploadedFile) (df : DataFrame) (name : string) :
  load_data (Some file) = Some df →
  load_data (Some {| file_name := name; file_table := df |}) = Some df.
Proof.
  intros Hload. pose proof (load_data_columns _ _ Hload) as Hcols.
  assert (Hall : Forall (λ k, not_unnamed k = true ∧ k ≠ S_NO) (columns df)).
  { rewrite Hcols. apply Forall_forall. by intros k [? _]%list_elem_of_filter. }
  assert (Hkeep : filter (λ k, not_unnamed k = true) (columns df) = columns df).
  { apply filter_all. eapply Forall_impl; [exact Hall|]. naive_solver. }
  assert (Hrows : filter (λ kv : string * cell, not_unnamed kv.1 = true) <$> rows df
                  = rows df).
  { unfold load_data in Hload. injection Hload as <-.
    case_decide; cbn [rows loc_columns drop_column]; rewrite <- !list_fmap_compose;
      apply list_fmap_ext; intros i row _; cbn [compose].
    - by rewrite map_filter_delete, filter_keys_idem.
    - apply filter_keys_idem. }
  unfold load_data. cbn [file_table]. f_equal.
  rewrite decide_False.
  - destruct df as [cols rs]. unfold loc_columns. cbn [columns rows] in *.
    by rewrite Hkeep, Hrows.
  - cbn [columns loc_columns]. rewrite Hkeep.
    intros Hs. rewrite Forall_forall in Hall. by destruct (Hall _ Hs).
Qed.

Lemma load_data_idempotent_witness :
  ∃ df, load_data (Some {| file_name := "a_2021.csv"; file_table := raw_table |}) = Some df
      ∧ load_data (Some {| file_name := "b_2021.csv"; file_table := df |}) = Some df.
Proof.
  eexists. split; [reflexivity|].
  apply (load_data_idempotent {| file_name := "a_2021.csv"; file_table := raw_table |}).
  reflexivity.
Defined.

Lemma load_data_preserves_identifiers_witness :
  ∃ df, load_data (Some {| file_name := "a_2021.csv"; file_table := raw_table |}) = Some df
      ∧ ids df = ids raw_table.
Proof.
  eexists. split; [reflexivity|].
  destruct (load_data_preserves_identifiers
              {| file_name := "a_2021.csv"; file_table := raw_table |} _ eq_refl)
    as (_ & _ & _ & Hids).
  apply Hids. apply (bool_decide_unpack _). vm_compute. exact I.
Defined.

(** ** Numbering: [add_serial_number] *)

(** X4: [add_serial_number] puts "Sr. No" first and nowhere else among the
    columns, keeps the other columns in order and the number of rows, and
    row [i] (from 0) gets the ordinal [i + 1] while its other cells stay. *)
Theorem add_serial_number_numbers_rows (df : DataFrame) :
  columns (add_serial_number df) = SR_NO :: filter (λ k, k ≠ SR_NO) (columns df)
  ∧ (SR_NO ∉ filter (λ k, k ≠ SR_NO) (columns df))
  ∧ length (rows (add_serial_number df)) = length (rows df)
  ∧ ∀ (i : nat) row, rows df !! i = Some row →
      ∃ row', rows (add_serial_number df) !! i = Some row'
        ∧ row' !! SR_NO = Some (Some (Int (Z.of_nat (i + 1))))
        ∧ ∀ c, c ≠ SR_NO → row' !! c = row !! c.
Proof.
  split; [apply columns_add_serial_number|].
  split; [rewrite list_elem_of_filter; naive_solver|].
  split; [apply length_add_serial_number|].
  intros i row Hrow.
  destruct (lookup_lt_is_Some_2 (rows (add_serial_number df)) i) as [row' Hrow'].
  { rewrite length_add_serial_number. by eapply lookup_lt_Some. }
  exists row'. split; [done|].
  destruct (add_serial_number_lookup df i row' Hrow') as (row0 & Hrow0 & Hsr & Hsame).
  rewrite Hrow in Hrow0. by injection Hrow0 as <-.
Qed.

(** X5: numbering is idempotent: numbering a numbered frame again gives
    the same frame, so "Sr. No" is never duplicated. *)
Theorem add_serial_number_idempotent (df : DataFrame) :
  add_serial_number (add_serial_number df) = add_serial_number df.
Proof.
  assert (Hcols : columns (add_serial_number (add_serial_number df))
                  = columns (add_serial_number df)).
  { rewrite !columns_add_serial_number. f_equal.
    rewrite filter_cons_False by naive_solver.
    apply filter_all, Forall_forall. by intros k [? _]%list_elem_of_filter. }
  assert (Hrows : rows (add_serial_number (add_serial_number df))
                  = rows (add_serial_number df)).
  { apply list_eq_same_length with (length (rows df)).
    - apply length_add_serial_number.
    - by rewrite !length_add_serial_number.
    - intros i row2 row1 _ Hrow2 Hrow1.
      apply add_serial_number_lookup in Hrow2 as (row1' & Hrow1' & Hsr2 & Hsame2).
      rewrite Hrow1 in Hrow1'. injection Hrow1' as <-.
      apply add_serial_number_lookup in Hrow1 as (row0 & _ & Hsr1 & _).
      apply map_eq. intros c. destruct (decide (c = SR_NO)) as [->|Hne].
      + by rewrite Hsr2, Hsr1.
      + by apply Hsame2. }
  destruct (add_serial_number (add_serial_number df)) as [cols2 rows2].
  destruct (add_serial_number df) as [cols1 rows1].
  cbn [columns rows] in *. by subst.
Qed.

(** ** File names and the uploaded mapping *)

Lemma string_length_app (a b : string) :
  String.length (a +:+ b) = (String.length a + String.length b)%nat.
Proof.
  induction a as [|c a IH]; [done|].
  simpl. by rewrite IH.
Qed.

Lemma string_app_assoc (a b c : string) : (a +:+ b) +:+ c = a +:+ b +:+ c.
Proof. induction a as [|x a IH]; [done|]. exact (f_equal (String x) IH). Qed.

Lemma string_chars_app (a b : string) :
  String.list_ascii_of_string (a +:+ b)
  = String.list_ascii_of_string a ++ String.list_ascii_of_string b.
Proof. induction a as [|x a IH]; [done|]. exact (f_equal (cons x) IH). Qed.

Lemma string_drop_app (a b : string) : string_drop (String.length a) (a +:+ b) = b.
Proof. induction a as [|c a IH]; [done|]. exact IH. Qed.

Lemma string_drop_split (n : nat) (s : string) :
  ∃ pre, s = pre +:+ string_drop n s
    ∧ String.length pre = Nat.min n (String.length s).
Proof.
  revert s. induction n as [|n IH]; intros s.
  - by exists EmptyString.
  - destruct s as [|c s]; [by exists EmptyString|].
    destruct (IH s) as (pre & Hpre & Hlen).
    exists (String c pre).
    split; [exact (f_equal (String c) Hpre)|exact (f_equal S Hlen)].
Qed.

Lemma before_dot_app (a rest : string) :
  "."%char ∉ String.list_ascii_of_string a →
  before_dot (a +:+ String "."%char rest) = a.
Proof.
  induction a as [|c a IH]; simpl; intros Hdot.
  - first [done | by rewrite decide_True].
  - apply not_elem_of_cons in Hdot as [Hne Hdot].
    rewrite decide_False by done. by rewrite IH.
Qed.

Lemma before_dot_no_dot (a : string) :
  "."%char ∉ String.list_ascii_of_string a → before_dot a = a.
Proof.
  induction a as [|c a IH]; simpl; intros Hdot; [done|].
  apply not_elem_of_cons in Hdot as [Hne Hdot].
  rewrite decide_False by done. by rewrite IH.
Qed.

Lemma before_dot_prefix (s : string) :
  ("."%char ∉ String.list_ascii_of_string (before_dot s))
  ∧ ∃ rest, s = before_dot s +:+ rest
      ∧ (rest = EmptyString ∨ ∃ rest', rest = String "."%char rest').
Proof.
  induction s as [|c s (Hdot & rest & Hs & Hrest)]; simpl.
  - split; [apply not_elem_of_nil|]. exists EmptyString. auto.
  - case_decide as Hc.
    + subst c. split; [apply not_elem_of_nil|].
      exists (String "."%char s). split; [done|]. right. eauto.
    + split; [simpl; by apply not_elem_of_cons|].
      exists rest. split; [exact (f_equal (String c) Hs)|done].
Qed.

(** X6: for a file name of the expected shape -- some text, a year of four
    characters, a dot and an extension, with no dot before the year's end
    -- the key of the upload is that year. *)
Theorem year_of_filename_expected_shape (pre year ext : string) :
  String.length year = 4%nat →
  "."%char ∉ String.list_ascii_of_string (pre +:+ year) →
  year_of_filename (pre +:+ year +:+ String "."%char ext) = year.
Proof.
  intros Hlen Hdot. unfold year_of_filename, last_chars.
  rewrite <- string_app_assoc.
  rewrite before_dot_app by done.
  rewrite string_length_app, Hlen.
  replace (String.length pre + 4 - 4)%nat with (String.length pre) by lia.
  apply string_drop_app.
Qed.

Lemma year_of_filename_expected_shape_witness :
  year_of_filename "chipsets_2021.csv" = "2021".
Proof.
  apply (year_of_filename_expected_shape "chipsets_" "2021" "csv").
  - reflexivity.
  - apply (bool_decide_unpack _). vm_compute. exact I.
Defined.

(** X7: in general, for a name of ASCII characters, the key is the last
    four characters of the part of the name before its first dot, or all
    of that part when it is shorter: it has no dot, at most four
    characters, and whatever follows the first dot of the name (a year
    included) is ignored. *)
Theorem year_of_filename_is_stem_suffix (name : string) :
  is_ascii_name name →
  String.length (year_of_filename name)
  = Nat.min 4 (String.length (before_dot name))
  ∧ ("."%char ∉ String.list_ascii_of_string (year_of_filename name))
  ∧ (∃ pre rest, name = pre +:+ year_of_filename name +:+ rest
       ∧ ("."%char ∉ String.list_ascii_of_string pre)
       ∧ (rest = EmptyString ∨ ∃ rest', rest = String "."%char rest'))
  ∧ (∀ rest, year_of_filename (before_dot name +:+ String "."%char rest)
             = year_of_filename name).
Proof.
  intros _.
  destruct (before_dot_prefix name) as (Hdot & rest & Hname & Hrest).
  unfold year_of_filename, last_chars.
  destruct (string_drop_split (String.length (before_dot name) - 4) (before_dot name))
    as (pre & Hpre & Hlen).
  assert (Hsplit : String.list_ascii_of_string (before_dot name)
                   = String.list_ascii_of_string pre
                     ++ String.list_ascii_of_string
                          (string_drop (String.length (before_dot name) - 4)
                                       (before_dot name))).
  { rewrite Hpre at 1. apply string_chars_app. }
  split.
  { apply (f_equal String.length) in Hpre. rewrite string_length_app in Hpre. lia. }
  split.
  { intros Hin. apply Hdot. rewrite Hsplit. apply elem_of_app. by right. }
  split.
  { exists pre, rest. split.
    - rewrite Hname at 1. rewrite Hpre at 1. apply string_app_assoc.
    - split; [|done]. intros Hin. apply Hdot. rewrite Hsplit.
      apply elem_of_app. by left. }
  intros rest'. by rewrite before_dot_app.
Qed.

Lemma year_of_filename_is_stem_suffix_witness :
  is_ascii_name "report2021.2022.csv"
  ∧ String.length (year_of_filename "report2021.2022.csv") = 4%nat
  ∧ ∀ rest, year_of_filename ("report2021" +:+ String "."%char rest) = "2021".
Proof.
  assert (Hascii : is_ascii_name "report2021.2022.csv")
    by (apply (bool_decide_unpack _); vm_compute; exact I).
  destruct (year_of_filename_is_stem_suffix "report2021.2022.csv" Hascii)
    as (Hlen & _ & _ & Hrest).
  split; [exact Hascii|]. split; [exact Hlen|exact Hrest].
Defined.

Lemma upload_step_insert data_dict file :
  ∃ df, load_data (Some file) = Some df
    ∧ upload_step data_dict file
      = <[year_of_filename (file_name file) := df]> data_dict.
Proof.
  unfold upload_step.
  destruct (load_data (Some file)) as [df|] eqn:Hload; [|discriminate]. eauto.
Qed.

Lemma uploaded_dict_snoc files file :
  uploaded_dict (files ++ [file]) = upload_step (uploaded_dict files) file.
Proof. unfold uploaded_dict. by rewrite foldl_app. Qed.

(** X8: the uploaded mapping has one period per distinct key: under a key
    it holds the loaded table of the last uploaded file with that key, so
    an earlier upload with the same key is lost; it has at most as many
    periods as files, and none only when no file was uploaded. *)
Theorem uploaded_dict_last_file_wins (uploaded_files : list UploadedFile) :
  (∀ y, uploaded_dict uploaded_files !! y
        = last (filter (λ f, year_of_filename (file_name f) = y) uploaded_files)
            ≫= λ f, load_data (Some f))
  ∧ (size (uploaded_dict uploaded_files) ≤ length uploaded_files)%nat
  ∧ (uploaded_dict uploaded_files = ∅ ↔ uploaded_files = []).
Proof.
  induction uploaded_files as [|file files (Hlook & Hsize & Hempty)] using rev_ind.
  - split; [intros y; apply lookup_empty|].
    split; [unfold uploaded_dict; cbn [foldl]; by rewrite map_size_empty|done].
  - rewrite uploaded_dict_snoc.
    destruct (upload_step_insert (uploaded_dict files) file) as (df & Hload & ->).
    split; [|split].
    + intros y. rewrite filter_app.
      destruct (decide (year_of_filename (file_name file) = y)) as [Hy|Hy].
      * rewrite filter_cons_True by done. rewrite filter_nil, last_snoc. cbn.
        by rewrite Hy, lookup_insert_eq.
      * rewrite filter_cons_False by done. rewrite filter_nil, (right_id_L [] (++)).
        by rewrite lookup_insert_ne.
    + rewrite length_app. cbn.
      destruct (uploaded_dict files !! year_of_filename (file_name file)) eqn:Hold.
      * rewrite map_size_insert_Some by done. lia.
      * rewrite map_size_insert_None by done. lia.
    + split.
      * intros Hins. by apply insert_non_empty in Hins.
      * intros Hnil. by apply app_nil in Hnil as [_ ?].
Qed.

(** ** One run of [main] *)

Lemma uploaded_dict_empty_iff files : uploaded_dict files = ∅ ↔ files = [].
Proof.
  destruct files as [|file files _] using rev_ind; [done|].
  rewrite uploaded_dict_snoc.
  destruct (upload_step_insert (uploaded_dict files) file) as (df & _ & ->).
  split.
  - intros Hins. by apply insert_non_empty in Hins.
  - intros Hnil. by apply app_nil in Hnil as [_ ?].
Qed.

Lemma sorted_keys_nonempty {V} (m : gmap string V) :
  (0 < length (sorted_keys m))%nat ↔ m ≠ ∅.
Proof.
  rewrite length_sorted_keys, <- map_size_non_empty_iff. lia.
Qed.

Lemma lookup_init_manual years y :
  init_manual years !! y = if decide (y ∈ years) then Some empty_manual else None.
Proof.
  unfold init_manual. induction years as [|y0 years IH].
  - by rewrite decide_False by apply not_elem_of_nil.
  - rewrite fmap_cons, list_to_map_cons.
    destruct (decide (y = y0)) as [->|Hne].
    + rewrite lookup_insert_eq. by rewrite decide_True by left.
    + rewrite lookup_insert_ne, IH by done.
      destruct (decide (y ∈ years)) as [Hy|Hy].
      * by rewrite decide_True by (by right).
      * rewrite decide_False; [done|]. rewrite elem_of_cons. naive_solver.
Qed.

Lemma ordered_union_manual_twice :
  ordered_union [] (MANUAL_COLUMNS ++ MANUAL_COLUMNS) = MANUAL_COLUMNS.
Proof. vm_compute. reflexivity. Qed.

Lemma cell_of_project_row cols row c :
  cell_of c (project_row cols row) = if decide (c ∈ cols) then cell_of c row else None.
Proof.
  unfold cell_of, project_row. rewrite map_lookup_filter.
  destruct (row !! c) as [x|]; cbn.
  - case_decide.
    + by rewrite option_guard_True.
    + by rewrite option_guard_False.
  - by case_decide.
Qed.

Lemma row_to_record_ext cols row1 row2 :
  (∀ c, c ∈ cols → cell_of c row1 = cell_of c row2) →
  row_to_record cols row1 = row_to_record cols row2.
Proof.
  intros Hc. unfold row_to_record. apply list_fmap_ext.
  intros i c Hi. f_equal. apply Hc. by eapply list_elem_of_lookup_2.
Qed.

Lemma to_dict_records_concat_same a b :
  columns a = MANUAL_COLUMNS → columns b = MANUAL_COLUMNS →
  columns (pd_concat a b) = MANUAL_COLUMNS
  ∧ to_dict_records (pd_concat a b) = to_dict_records a ++ to_dict_records b.
Proof.
  intros Ha Hb. unfold pd_concat, to_dict_records. cbn [columns rows].
  rewrite Ha, Hb, ordered_union_manual_twice. split; [done|].
  rewrite fmap_app, <- !list_fmap_compose. f_equal;
    apply list_fmap_ext; intros i row _; cbn [compose];
    apply row_to_record_ext; intros c Hc;
    by rewrite cell_of_project_row, decide_True.
Qed.

Lemma map_result_Ok {A B} (f : A → result B) (g : A → B) (l : list A) :
  (∀ x, x ∈ l → f x = Ok (g x)) → map_result f l = Ok (g <$> l).
Proof.
  induction l as [|x l IH]; intros Hf; [done|].
  cbn [map_result]. rewrite Hf by left. bind_ok.
  by rewrite IH by (intros; apply Hf; by right).
Qed.

Lemma merge_step_Ok (manual d : gmap string DataFrame) y df mf :
  d !! y = Some df → manual !! y = Some mf →
  merge_step manual y d = Ok (<[y := pd_concat df mf]> d).
Proof.
  intros Hdf Hmf. unfold merge_step.
  rewrite (dict_get_Some _ _ _ Hdf). bind_ok.
  by rewrite (dict_get_Some _ _ _ Hmf).
Qed.

Lemma merge_step_Raise (manual d : gmap string DataFrame) y df :
  d !! y = Some df → manual !! y = None →
  merge_step manual y d = Raise (KeyError y).
Proof.
  intros Hdf Hmf. unfold merge_step.
  rewrite (dict_get_Some _ _ _ Hdf). bind_ok.
  unfold dict_get. by rewrite Hmf.
Qed.

Lemma merge_loop_Ok (manual d : gmap string DataFrame) (ys : list string) :
  NoDup ys →
  (∀ y, y ∈ ys → is_Some (d !! y) ∧ is_Some (manual !! y)) →
  ∃ d', for_each ys (merge_step manual) d = Ok d'
    ∧ ∀ y, d' !! y
           = if decide (y ∈ ys)
             then df ← d !! y; mf ← manual !! y; Some (pd_concat df mf)
             else d !! y.
Proof.
  revert d. induction ys as [|y0 ys IH]; intros d Hnd Hys.
  - exists d. split; [done|]. intros y. by rewrite decide_False by apply not_elem_of_nil.
  - apply NoDup_cons in Hnd as [Hy0 Hnd].
    destruct (Hys y0) as [[df Hdf] [mf Hmf]]; [left|].
    cbn [for_each]. rewrite (merge_step_Ok _ _ _ _ _ Hdf Hmf). bind_ok.
    destruct (IH (<[y0 := pd_concat df mf]> d) Hnd) as (d' & -> & Hd').
    { intros y Hy. destruct (Hys y) as [Hd Hm]; [by right|]. split; [|done].
      rewrite lookup_insert_ne; [done|]. by intros ->. }
    exists d'. split; [done|]. intros y. rewrite Hd'.
    destruct (decide (y ∈ ys)) as [Hy|Hy].
    + rewrite decide_True by (by right).
      rewrite lookup_insert_ne; [done|]. by intros ->.
    + destruct (decide (y = y0)) as [->|Hne].
      * rewrite decide_True by left. by rewrite lookup_insert_eq, Hdf, Hmf.
      * rewrite decide_False by (rewrite elem_of_cons; naive_solver).
        by rewrite lookup_insert_ne.
Qed.

Lemma merge_loop_Raise (manual d : gmap string DataFrame) (pre post : list string) y0 :
  NoDup (pre ++ y0 :: post) →
  (∀ y, y ∈ pre ++ y0 :: post → is_Some (d !! y)) →
  (∀ y, y ∈ pre → is_Some (manual !! y)) →
  manual !! y0 = None →
  for_each (pre ++ y0 :: post) (merge_step manual) d = Raise (KeyError y0).
Proof.
  revert d. induction pre as [|y pre IH]; intros d Hnd Hd Hpre Hy0.
  - cbn [app for_each].
    destruct (Hd y0) as [df Hdf]; [left|].
    by rewrite (merge_step_Raise _ _ _ _ Hdf Hy0).
  - cbn [app for_each].
    destruct (Hd y) as [df Hdf]; [left|].
    destruct (Hpre y) as [mf Hmf]; [left|].
    rewrite (merge_step_Ok _ _ _ _ _ Hdf Hmf). bind_ok.
    apply NoDup_cons in Hnd as [Hy Hnd].
    apply IH; [done| |intros; apply Hpre; by right|done].
    intros z Hz. rewrite lookup_insert_ne; [apply Hd; by right|]. by intros ->.
Qed.

Lemma show_comparison_Shown d manual years o :
  show_comparison d manual years = Ok o →
  ∃ tables added removed reappeared, o = Shown tables added removed reappeared.
Proof.
  unfold show_comparison.
  intros (d' & _ & (tables & _ & ([[a r] re] & _ & Ho)%bind_Ok_inv)%bind_Ok_inv)%bind_Ok_inv.
  injection Ho as <-. eauto.
Qed.

(** X9: the upload error is what a run ends in exactly when no file was
    uploaded; such a run leaves the session as it was (the manual entries
    are not even initialised). *)
Theorem main_run_no_upload (uploaded_files : list UploadedFile) (inp : SidebarInput)
    (session session' : option (gmap string DataFrame)) (msg : string) :
  main_run uploaded_files inp session = (session', NoUpload msg) ↔
  uploaded_files = [] ∧ session' = session
  ∧ msg = "Please upload at least one CSV file.".
Proof.
  unfold main_run. case_decide as Hlen.
  - apply sorted_keys_nonempty in Hlen. rewrite uploaded_dict_empty_iff in Hlen.
    split; [|naive_solver].
    destruct (add_entry_clicked inp).
    + destruct (dict_get _ _); discriminate.
    + destruct (show_comparison _ _ _) as [o|e] eqn:Hshow; [|discriminate].
      apply show_comparison_Shown in Hshow as (t & a & r & re & ->). discriminate.
  - assert (uploaded_files = []) as ->.
    { apply uploaded_dict_empty_iff.
      destruct (decide (uploaded_dict uploaded_files = ∅)) as [|Hne]; [done|].
      by apply sorted_keys_nonempty in Hne. }
    split.
    + by intros [= <- <-].
    + by intros (_ & -> & ->).
Qed.

Lemma manual_entries_dom_init years (m : gmap string DataFrame) :
  m = init_manual years → ∀ y, is_Some (m !! y) ↔ y ∈ years.
Proof.
  intros -> y. rewrite lookup_init_manual. case_decide; [by eauto|].
  split; [by intros [? ?]|done].
Qed.

(** X10: session invariant.  Every run keeps the manual-entry frames on
    the three manual columns; and once the session has manual entries, the
    set of years it has them for never changes, whatever is uploaded. *)
Theorem main_run_session_invariant (uploaded_files : list UploadedFile)
    (inp : SidebarInput) (session : option (gmap string DataFrame)) :
  manual_columns_ok session →
  manual_columns_ok (main_run uploaded_files inp session).1
  ∧ (∀ m, session = Some m →
       ∃ m', (main_run uploaded_files inp session).1 = Some m' ∧ dom m' = dom m)
  ∧ (session = None → uploaded_files ≠ [] →
       ∃ m', (main_run uploaded_files inp session).1 = Some m'
         ∧ dom m' = dom (uploaded_dict uploaded_files)).
Proof.
  intros Hok. unfold main_run.
  set (years := sorted_keys (uploaded_dict uploaded_files)).
  assert (Hinit : manual_columns_ok (Some (init_manual years))).
  { intros y df. rewrite lookup_init_manual. case_decide; [|done]. by intros [= <-]. }
  assert (Hdom_init : dom (init_manual years) = dom (uploaded_dict uploaded_files)).
  { apply set_eq. intros y. rewrite !elem_of_dom, lookup_init_manual.
    unfold years. rewrite <- elem_of_sorted_keys.
    case_decide; [by split; eauto|]. split; [by intros [? ?]|done]. }
  set (entries := match session with Some m => m | None => init_manual years end).
  assert (Hentries : manual_columns_ok (Some entries)).
  { unfold entries. by destruct session. }
  assert (Hgrow : ∀ old, entries !! selected_year inp = Some old →
            manual_columns_ok
              (Some (<[selected_year inp := pd_concat old (new_entry inp)]> entries))
            ∧ dom (<[selected_year inp := pd_concat old (new_entry inp)]> entries)
              = dom entries).
  { intros old Hold. split.
    - apply map_Forall_insert_2; [|done].
      by apply to_dict_records_concat_same; [eapply Hentries|].
    - rewrite dom_insert_L. apply elem_of_dom_2 in Hold. set_solver. }
  case_decide as Hlen.
  - destruct (add_entry_clicked inp).
    + unfold dict_get. destruct (entries !! selected_year inp) as [old|] eqn:Hold;
        cbn [fst].
      * destruct (Hgrow old eq_refl) as [Hok' Hdom']. split; [done|]. split.
        -- intros m ->. eauto.
        -- intros -> _. eexists. split; [done|]. by rewrite Hdom'.
      * split; [done|]. split.
        -- intros m ->. eauto.
        -- intros -> _. eauto.
    + destruct (show_comparison _ _ _); cbn [fst].
      * split; [done|]. split; [intros m ->; eauto|intros -> _; eauto].
      * split; [done|]. split; [intros m ->; eauto|intros -> _; eauto].
  - cbn [fst]. split; [done|]. split; [intros m ->; eauto|].
    intros -> Hfiles. destruct Hlen. apply sorted_keys_nonempty.
    by rewrite uploaded_dict_empty_iff.
Qed.

Lemma main_run_session_invariant_witness :
  manual_columns_ok None
  ∧ manual_columns_ok (main_run sample_files (sample_input true) None).1.
Proof.
  split; [exact I|].
  apply (main_run_session_invariant sample_files (sample_input true) None I).
Defined.

(** X11: "Add Entry".  When the button is clicked (and a file is uploaded),
    the run displays no comparison: it appends one record holding the three
    typed texts, as typed, to the manual entries of the selected year,
    leaves the other years' entries alone, and asks for a rerun; if the
    session has no entries for the selected year it fails with [KeyError].
    In a fresh session the entries of every uploaded year start empty. *)
Theorem main_run_add_entry (uploaded_files : list UploadedFile) (inp : SidebarInput)
    (session : option (gmap string DataFrame)) :
  add_entry_clicked inp = true → uploaded_files ≠ [] →
  manual_columns_ok session →
  let years := sorted_keys (uploaded_dict uploaded_files) in
  let entries := match session with Some m => m | None => init_manual years end in
  (∀ old, entries !! selected_year inp = Some old →
     ∃ grown,
       main_run uploaded_files inp session
       = (Some (<[selected_year inp := grown]> entries), Rerun)
       ∧ columns grown = MANUAL_COLUMNS
       ∧ to_dict_records grown
         = to_dict_records old
           ++ [[(CHIPSET_SP, Some (Str (new_chipset inp)));
                ("Customer", Some (Str (new_customer inp)));
                ("PDM Name", Some (Str (new_pdm inp)))]])
  ∧ (entries !! selected_year inp = None →
     main_run uploaded_files inp session
     = (Some entries, Failed (KeyError (selected_year inp))))
  ∧ (session = None →
     ∀ y, entries !! y = if decide (y ∈ years) then Some empty_manual else None).
Proof.
  intros Hclick Hfiles Hok years entries.
  assert (Hlen : (0 < length years)%nat).
  { apply sorted_keys_nonempty. by rewrite uploaded_dict_empty_iff. }
  assert (Hentries : manual_columns_ok (Some entries)).
  { unfold entries. destruct session; [done|].
    intros y df. rewrite lookup_init_manual. case_decide; [|done]. by intros [= <-]. }
  split; [|split].
  - intros old Hold. exists (pd_concat old (new_entry inp)).
    split.
    + unfold main_run. fold years. rewrite decide_True by done. fold entries.
      rewrite Hclick. by rewrite (dict_get_Some _ _ _ Hold).
    + destruct (to_dict_records_concat_same old (new_entry inp)) as [Hc Hr];
        [by eapply Hentries|done|].
      split; [done|]. rewrite Hr. f_equal.
  - intros Hnone. unfold main_run. fold years. rewrite decide_True by done.
    fold entries. rewrite Hclick. unfold dict_get. by rewrite Hnone.
  - intros -> y. apply lookup_init_manual.
Qed.

Lemma main_run_add_entry_witness :
  add_entry_clicked (sample_input true) = true ∧ sample_files ≠ []
  ∧ ∃ grown,
      main_run sample_files (sample_input true) None
      = (Some (<["2022" := grown]>
                 (init_manual (sorted_keys (uploaded_dict sample_files)))), Rerun)
      ∧ to_dict_records grown
        = [[(CHIPSET_SP, Some (Str "m")); ("Customer", Some (Str "c9"));
            ("PDM Name", Some (Str "p9"))]].
Proof.
  split; [reflexivity|]. split; [discriminate|].
  destruct (main_run_add_entry sample_files (sample_input true) None eq_refl)
    as (Hgrow & _ & _); [discriminate|exact I|].
  destruct (Hgrow empty_manual) as (grown & Hrun & _ & Hrecs).
  { vm_compute. reflexivity. }
  exists grown. split; [exact Hrun|exact Hrecs].
Defined.

Lemma StronglySorted_sorted_keys {V} (m : gmap string V) :
  StronglySorted String.le (sorted_keys m).
Proof. apply StronglySorted_merge_sort; apply _. Qed.

Lemma sorted_keys_same_dom {V W} (m1 : gmap string V) (m2 : gmap string W) :
  (∀ y, is_Some (m1 !! y) ↔ is_Some (m2 !! y)) → sorted_keys m1 = sorted_keys m2.
Proof.
  intros Hdom. apply sorted_keys_unique.
  - apply StronglySorted_sorted_keys.
  - apply NoDup_sorted_keys.
  - intros y. by rewrite elem_of_sorted_keys, Hdom.
Qed.

Lemma previews_Ok (d : gmap string DataFrame) ys ps :
  Forall2 (λ y p, d !! y = Some p) ys ps →
  previews d ys = Ok (add_serial_number <$> ps).
Proof.
  unfold previews. induction 1 as [|y p ys ps Hy _ IH]; [done|].
  cbn [map_result]. rewrite (dict_get_Some _ _ _ Hy). bind_ok. by rewrite IH.
Qed.

(** X13: a run without a click on "Add Entry", with files uploaded and
    manual entries for every uploaded year (as in every fresh session).
    With exactly one uploaded year the run fails at line 106 ([with st:])
    before anything is previewed or compared.  With more than one year it
    ends in the display: one preview per year, and the comparator is called
    on a mapping that has the uploaded years as its keys and, per year, the
    columns and rows of the loaded table and of the year's manual entries;
    every frame of it has the identifier column, so the comparator's
    [KeyError] cannot occur. *)
Theorem main_run_shows_comparison (uploaded_files : list UploadedFile)
    (inp : SidebarInput) (session : option (gmap string DataFrame)) :
  add_entry_clicked inp = false → uploaded_files ≠ [] →
  manual_columns_ok session →
  let uploaded := uploaded_dict uploaded_files in
  let years := sorted_keys uploaded in
  let entries := match session with Some m => m | None => init_manual years end in
  (∀ m, session = Some m → ∀ y, y ∈ years → is_Some (m !! y)) →
  ((length years = 1)%nat →
     main_run uploaded_files inp session = (Some entries, Failed TypeError))
  ∧ ((1 < length years)%nat →
     ∃ merged tables added removed reappeared,
       main_run uploaded_files inp session
       = (Some entries, Shown tables added removed reappeared)
       ∧ sorted_keys merged = years
       ∧ length tables = length years
       ∧ (∀ y df, merged !! y = Some df →
            ∃ up mf, uploaded !! y = Some up ∧ entries !! y = Some mf
              ∧ (∀ c, c ∈ columns df ↔ c ∈ columns up ∨ c ∈ columns mf)
              ∧ length (rows df) = (length (rows up) + length (rows mf))%nat)
       ∧ has_identifier_column merged
       ∧ compare_chipsets merged = Ok (added, removed, reappeared)).
Proof.
  intros Hclick Hfiles Hok uploaded years entries Hcover.
  assert (Hlen : (0 < length years)%nat).
  { apply sorted_keys_nonempty. unfold uploaded. by rewrite uploaded_dict_empty_iff. }
  assert (Hentries : manual_columns_ok (Some entries)).
  { unfold entries. destruct session; [done|].
    intros y df. rewrite lookup_init_manual. case_decide; [|done]. by intros [= <-]. }
  assert (Hall : ∀ y, y ∈ years → is_Some (uploaded !! y) ∧ is_Some (entries !! y)).
  { intros y Hy. split; [by apply elem_of_sorted_keys|].
    unfold entries. destruct session as [m|]; [by eapply Hcover|].
    rewrite lookup_init_manual. rewrite decide_True by done. eauto. }
  destruct (merge_loop_Ok entries uploaded years (NoDup_sorted_keys _) Hall)
    as (merged & Hloop & Hmerged).
  assert (Hlook : ∀ y, merged !! y
                       = df ← uploaded !! y; mf ← entries !! y; Some (pd_concat df mf)).
  { intros y. rewrite Hmerged. case_decide as Hy; [done|].
    unfold years in Hy. rewrite elem_of_sorted_keys, <- eq_None_not_Some in Hy.
    by rewrite Hy. }
  assert (Hkeys : sorted_keys merged = years).
  { apply sorted_keys_same_dom. intros y. rewrite Hlook.
    split.
    - destruct (uploaded !! y); [eauto|]. by intros [? ?].
    - intros Hy. destruct (Hall y) as [[df ->] [mf ->]];
        [by apply elem_of_sorted_keys|]. cbn. eauto. }
  assert (Hparts : ∀ y df, merged !! y = Some df →
            ∃ up mf, uploaded !! y = Some up ∧ entries !! y = Some mf
              ∧ df = pd_concat up mf).
  { intros y df. rewrite Hlook.
    destruct (uploaded !! y) as [up|]; [|done]. cbn.
    destruct (entries !! y) as [mf|]; [|done]. cbn. intros [= <-]. eauto. }
  assert (Hcol : has_identifier_column merged).
  { intros y df Hdf. destruct (Hparts y df Hdf) as (up & mf & _ & Hmf & ->).
    unfold pd_concat. cbn [columns]. apply elem_of_ordered_union.
    split; [|apply not_elem_of_nil]. apply elem_of_app. right.
    rewrite (Hentries y mf Hmf). by left. }
  split.
  - intros Hone. unfold main_run. fold uploaded. fold years.
    rewrite decide_True by done. fold entries. rewrite Hclick.
    unfold show_comparison. rewrite Hloop. bind_ok.
    unfold show_previews. rewrite decide_False by lia.
    by destruct years as [|y0 ys].
  - intros Hmany.
    exists merged, (add_serial_number <$> periods merged),
      (add_serial_number (DataFrame_of_records (added_pass ∅ (periods merged)))),
      (add_serial_number (DataFrame_of_records (removed_final (periods merged)))),
      (add_serial_number (DataFrame_of_records (reappeared_records (periods merged)))).
    split; [|split; [done|split; [|split; [|split; [done|by apply compare_chipsets_Ok]]]]].
    + unfold main_run. fold uploaded. fold years. rewrite decide_True by done.
      fold entries. rewrite Hclick. unfold show_comparison.
      rewrite Hloop. bind_ok.
      unfold show_previews. rewrite decide_True by done.
      rewrite (previews_Ok merged years (periods merged)).
      2:{ rewrite <- Hkeys. apply periods_years. }
      bind_ok. by rewrite (compare_chipsets_Ok merged Hcol).
    + rewrite length_fmap, length_periods, <- Hkeys. symmetry. apply length_sorted_keys.
    + intros y df Hdf. destruct (Hparts y df Hdf) as (up & mf & Hup & Hmf & ->).
      exists up, mf. split; [done|]. split; [done|]. split.
      * intros c. unfold pd_concat. cbn [columns].
        rewrite elem_of_ordered_union, elem_of_app.
        split; [naive_solver|]. intros H. split; [done|apply not_elem_of_nil].
      * unfold pd_concat. cbn [rows]. by rewrite length_app, !length_fmap.
Qed.

Lemma main_run_shows_comparison_witness :
  add_entry_clicked (sample_input false) = false ∧ sample_files ≠ []
  ∧ ∃ tables added removed reappeared,
      main_run sample_files (sample_input false) None
      = (Some (init_manual (sorted_keys (uploaded_dict sample_files))),
         Shown tables added removed reappeared)
      ∧ length tables = 2%nat.
Proof.
  split; [reflexivity|]. split; [discriminate|].
  destruct (main_run_shows_comparison sample_files (sample_input false) None eq_refl)
    as (_ & Hmany); [discriminate|exact I|discriminate|].
  destruct Hmany as (merged & t & a & r & re & Hrun & _ & Hlen & _).
  { vm_compute. lia. }
  exists t, a, r, re. split; [exact Hrun|]. rewrite Hlen. vm_compute. reflexivity.
Defined.

(** X14: stale session.  Without a click, when the session holds manual
    entries but none for some uploaded year (a file for a new year was
    uploaded after the entries were initialised), the run fails with the
    [KeyError] of the first such year in ascending order, before anything
    is compared; the session stays as it was. *)
Theorem main_run_stale_session (uploaded_files : list UploadedFile)
    (inp : SidebarInput) (m : gmap string DataFrame)
    (pre post : list string) (y0 : string) :
  add_entry_clicked inp = false →
  sorted_keys (uploaded_dict uploaded_files) = pre ++ y0 :: post →
  (∀ y, y ∈ pre → is_Some (m !! y)) →
  m !! y0 = None →
  main_run uploaded_files inp (Some m) = (Some m, Failed (KeyError y0)).
Proof.
  intros Hclick Hyears Hpre Hy0. unfold main_run.
  rewrite decide_True by (rewrite Hyears, length_app; cbn; lia).
  rewrite Hclick. unfold show_comparison.
  rewrite Hyears at 1.
  rewrite (merge_loop_Raise m (uploaded_dict uploaded_files) pre post y0); [done| | |done..].
  - rewrite <- Hyears. apply NoDup_sorted_keys.
  - intros y Hy. apply elem_of_sorted_keys. by rewrite Hyears.
Qed.

Lemma main_run_stale_session_witness :
  main_run sample_files (sample_input false) (Some {[ "2021" := empty_manual ]})
  = (Some {[ "2021" := empty_manual ]}, Failed (KeyError "2022")).
Proof.
  apply (main_run_stale_session sample_files (sample_input false)
           {[ "2021" := empty_manual ]} ["2021"] [] "2022").
  - reflexivity.
  - vm_compute. reflexivity.
  - intros y Hy. apply (bool_decide_unpack _).
    apply list_elem_of_singleton in Hy as ->. vm_compute. exact I.
  - vm_compute. reflexivity.
Defined.

(** ** More on the comparator *)

(** X15: on frames with distinct labels, the only exception of the
    comparator is [KeyError('Chipset SP')], raised exactly when some
    period's frame lacks the identifier column; in particular it never
    raises [IndexError], whatever the number of periods. *)
Theorem compare_chipsets_only_key_error (dd : gmap string DataFrame) (e : exn) :
  distinct_labels dd →
  compare_chipsets dd = Raise e ↔
  e = KeyError CHIPSET_SP ∧ ∃ y df, dd !! y = Some df ∧ CHIPSET_SP ∉ columns df.
Proof.
  intros _.
  destruct (decide (has_identifier_column dd)) as [Hcol|Hno].
  - rewrite (compare_chipsets_Ok dd Hcol). split; [discriminate|].
    intros (_ & y & df & Hy & Hdf). destruct Hdf. by eapply Hcol.
  - unfold compare_chipsets. rewrite (compare_records_missing_column dd Hno). bind_ok.
    split.
    + intros [= <-]. split; [done|].
      apply map_not_Forall in Hno as (y & df & Hy & Hdf); [eauto|apply _].
    + by intros [-> _].
Qed.

Lemma compare_chipsets_only_key_error_witness :
  distinct_labels {[ "2021" := mk_frame []; "2022" := mkDataFrame ["Customer"] [] ]}
  ∧ compare_chipsets {[ "2021" := mk_frame []; "2022" := mkDataFrame ["Customer"] [] ]}
    = Raise (KeyError CHIPSET_SP).
Proof.
  assert (Hd : distinct_labels
                 {[ "2021" := mk_frame []; "2022" := mkDataFrame ["Customer"] [] ]})
    by (apply (bool_decide_unpack _); vm_compute; exact I).
  split; [exact Hd|].
  apply (compare_chipsets_only_key_error _ _ Hd). split; [reflexivity|].
  exists "2022", (mkDataFrame ["Customer"] []).
  split; [vm_compute; reflexivity|].
  apply (bool_decide_unpack _). vm_compute. exact I.
Defined.

Lemma elem_of_seen_before ps (i : nat) v :
  v ∈ (∅ ∪ ⋃ (ids <$> take i ps) : gset value) ↔
  ∃ (j : nat) q, (j < i)%nat ∧ ps !! j = Some q ∧ v ∈ ids q.
Proof.
  rewrite (left_id_L ∅ (∪)), elem_of_union_list. split.
  - intros (X & (q & -> & Hq)%list_elem_of_fmap & Hv).
    apply list_elem_of_lookup in Hq as [j Hj].
    apply lookup_take_Some in Hj as [Hj Hlt]. eauto.
  - intros (j & q & Hlt & Hq & Hv). exists (ids q). split; [|done].
    apply list_elem_of_fmap. exists q. split; [done|].
    apply list_elem_of_lookup. exists j. by rewrite lookup_take_lt.
Qed.

Lemma added_pass_complete U ps v :
  Forall (λ p, CHIPSET_SP ∈ columns p) ps →
  (∃ p, p ∈ ps ∧ v ∈ ids p) → v ∉ U →
  ∃ r, r ∈ added_pass U ps ∧ record_id r = Some v.
Proof.
  revert U. induction ps as [|p ps IH]; intros U Hcols (q & Hq & Hv) HU.
  - by apply elem_of_nil in Hq.
  - apply Forall_cons in Hcols as [Hp Hcols]. cbn [added_pass].
    destruct (decide (v ∈ ids p)) as [Hin|Hnin].
    + apply elem_of_ids in Hin as Hrow. destruct Hrow as (row & Hrow & Hid).
      exists (row_to_record (columns p) row). split.
      * apply elem_of_app. left. apply elem_of_select. exists row, v.
        repeat split; [done..|]. by apply elem_of_difference.
      * unfold record_id. by rewrite record_lookup_row, Hid.
    + apply elem_of_cons in Hq as [->|Hq]; [done|].
      destruct (IH (U ∪ ids p) Hcols) as (r & Hr & Hid); [by eauto|set_solver|].
      exists r. split; [|done]. apply elem_of_app. by right.
Qed.

(** X16: Added covers every identifier once.  With the periods in strictly
    ascending order of their year, the identifiers of the Added
    records are exactly the identifiers that occur in some period; and the
    records Added for period [i] are those whose identifier is in [S_i] and
    in no earlier period's set, so an identifier is Added for the period of
    its first appearance only. *)
Theorem added_first_appearance (dd : gmap string DataFrame) :
  has_identifier_column dd →
  let ps := periods dd in
  StronglySorted (strict String.le) (sorted_keys dd)
  ∧ (∀ y, y ∈ sorted_keys dd ↔ is_Some (dd !! y))
  ∧ Forall2 (λ y p, dd !! y = Some p) (sorted_keys dd) ps
  ∧ ∃ added removed reappeared,
    compare_records dd = Ok (added, removed, reappeared)
    ∧ added = mjoin (imap (λ i p, select p (ids p ∖ (∅ ∪ ⋃ (ids <$> take i ps)))) ps)
    ∧ (∀ (i : nat) p v, ps !! i = Some p →
         v ∈ ids p ∖ (∅ ∪ ⋃ (ids <$> take i ps)) ↔
         v ∈ ids p ∧ ∀ (j : nat) q, (j < i)%nat → ps !! j = Some q → v ∉ ids q)
    ∧ (∀ v, (∃ r, r ∈ added ∧ record_id r = Some v) ↔ ∃ p, p ∈ ps ∧ v ∈ ids p).
Proof.
  intros Hcol ps.
  destruct (periods_ascending dd) as (Hsorted & Hkeys & Hlink).
  split; [exact Hsorted|]. split; [exact Hkeys|]. split; [exact Hlink|].
  exists (added_pass ∅ ps), (removed_final ps), (reappeared_records ps).
  split; [by apply compare_records_Ok|].
  split; [apply added_pass_index|].
  split.
  { intros i p v Hp. rewrite elem_of_difference, elem_of_seen_before. naive_solver. }
  intros v. split.
  - intros (r & Hr & Hid). apply added_pass_from_input in Hr as Hfrom.
    destruct Hfrom as (p & row & v' & Hp & Hrow & -> & Hv').
    exists p. split; [done|].
    apply elem_of_periods in Hp as Hy. destruct Hy as [y Hy].
    unfold record_id in Hid. rewrite record_lookup_row, Hv' in Hid by (by eapply Hcol).
    injection Hid as <-. apply elem_of_ids. eauto.
  - intros Hex. apply added_pass_complete; [|done|apply not_elem_of_empty].
    apply Forall_forall. intros p [y Hy]%elem_of_periods. by eapply Hcol.
Qed.

Lemma added_first_appearance_witness :
  has_identifier_column sample3
  ∧ ∃ added removed reappeared,
      compare_records sample3 = Ok (added, removed, reappeared)
      ∧ ∃ r, r ∈ added ∧ record_id r = Some (Str "y").
Proof.
  assert (Hcol : has_identifier_column sample3)
    by (apply (bool_decide_unpack _); vm_compute; exact I).
  split; [exact Hcol|].
  destruct (added_first_appearance sample3 Hcol)
    as (_ & _ & _ & a & r & re & Hrec & _ & _ & Hids).
  exists a, r, re. split; [exact Hrec|]. apply Hids.
  exists (mk_frame [mk_row (Some (Str "x")) "c2"; mk_row (Some (Str "y")) "c4"]).
  split; apply (bool_decide_unpack _); vm_compute; exact I.
Defined.

Lemma select_sublist p s : select p s `sublist_of` to_dict_records p.
Proof. unfold select, to_dict_records. apply fmap_sublist, sublist_filter. Qed.

Lemma added_pass_sublist U ps : added_pass U ps `sublist_of` ps ≫= to_dict_records.
Proof.
  revert U. induction ps as [|p ps IH]; intros U; [done|].
  cbn [added_pass]. rewrite bind_cons. apply sublist_app; [apply select_sublist|apply IH].
Qed.

Lemma chunks_sublist (chunk : nat → list record) ps (a k : nat) :
  (∀ i p, ps !! i = Some p → chunk i `sublist_of` to_dict_records p) →
  (∀ i, ps !! i = None → chunk i = []) →
  seq a k ≫= chunk `sublist_of` drop a ps ≫= to_dict_records.
Proof.
  intros Hsome Hnone. revert a. induction k as [|k IH]; intros a.
  - apply sublist_nil_l.
  - cbn [seq]. rewrite bind_cons. destruct (ps !! a) as [p|] eqn:Hp.
    + rewrite (drop_S _ _ _ Hp), bind_cons. apply sublist_app; [by apply Hsome|apply IH].
    + rewrite (Hnone a Hp). cbn [app]. etrans; [apply IH|].
      apply bind_sublist. apply lookup_ge_None in Hp.
      by rewrite !drop_ge by lia.
Qed.

Lemma chunks_sublist_all (chunk : nat → list record) ps (a k : nat) :
  (∀ i p, ps !! i = Some p → chunk i `sublist_of` to_dict_records p) →
  (∀ i, ps !! i = None → chunk i = []) →
  seq a k ≫= chunk `sublist_of` ps ≫= to_dict_records.
Proof.
  intros Hsome Hnone. etrans; [by apply chunks_sublist|].
  apply bind_sublist, sublist_drop.
Qed.

(** X17: order.  Each of the three record lists is a sub-sequence of the
    records of all periods taken in strictly ascending order of the years
    (as the first conjuncts say of [periods]) and, in a
    period, in row order: records come out in the order they were put in,
    and none is invented. *)
Theorem outputs_in_input_order (dd : gmap string DataFrame) :
  has_identifier_column dd →
  let ps := periods dd in
  let all_records := ps ≫= to_dict_records in
  StronglySorted (strict String.le) (sorted_keys dd)
  ∧ (∀ y, y ∈ sorted_keys dd ↔ is_Some (dd !! y))
  ∧ Forall2 (λ y p, dd !! y = Some p) (sorted_keys dd) ps
  ∧ ∃ added removed reappeared,
    compare_records dd = Ok (added, removed, reappeared)
    ∧ added `sublist_of` all_records
    ∧ removed `sublist_of` all_records
    ∧ reappeared `sublist_of` all_records.
Proof.
  intros Hcol. cbv zeta.
  destruct (periods_ascending dd) as (Hsorted & Hkeys & Hlink).
  split; [exact Hsorted|]. split; [exact Hkeys|]. split; [exact Hlink|].
  exists (added_pass ∅ (periods dd)), (removed_final (periods dd)),
    (reappeared_records (periods dd)).
  split; [by apply compare_records_Ok|].
  split; [apply added_pass_sublist|]. split.
  - unfold removed_final. etrans; [apply sublist_filter|].
    apply chunks_sublist_all.
    + intros i p Hp. unfold removed_chunk. rewrite Hp. apply select_sublist.
    + intros i Hp. unfold removed_chunk. by rewrite Hp.
  - apply chunks_sublist_all.
    + intros i p Hp. unfold reappeared_chunk. rewrite Hp. apply select_sublist.
    + intros i Hp. unfold reappeared_chunk. by rewrite Hp.
Qed.

Lemma outputs_in_input_order_witness :
  has_identifier_column sample4
  ∧ ∃ added removed reappeared,
      compare_records sample4 = Ok (added, removed, reappeared)
      ∧ removed `sublist_of` (periods sample4 ≫= to_dict_records).
Proof.
  assert (Hcol : has_identifier_column sample4)
    by (apply (bool_decide_unpack _); vm_compute; exact I).
  split; [exact Hcol|].
  destruct (outputs_in_input_order sample4 Hcol)
    as (_ & _ & _ & a & r & re & Hrec & _ & Hr & _).
  exists a, r, re. split; [exact Hrec|exact Hr].
Defined.

(** X18: two periods.  With exactly two periods, the first being the frame
    of the smaller year and the second that of the larger, the comparator is
    the two-way difference: Added is the first period's records with a non-null
    identifier followed by the second period's records whose identifier is
    not in the first period; Removed is the first period's records whose
    identifier is not in the second; Reappeared is empty. *)
Theorem two_period_difference (dd : gmap string DataFrame) (p1 p2 : DataFrame) :
  has_identifier_column dd →
  periods dd = [p1; p2] →
  (∃ y1 y2, sorted_keys dd = [y1; y2] ∧ strict String.le y1 y2
     ∧ dd !! y1 = Some p1 ∧ dd !! y2 = Some p2
     ∧ ∀ y, is_Some (dd !! y) ↔ y = y1 ∨ y = y2)
  ∧ compare_records dd
    = Ok ((row_to_record (columns p1)
             <$> filter (λ row, is_Some (cell_of CHIPSET_SP row)) (rows p1))
          ++ select p2 (ids p2 ∖ ids p1),
          select p1 (ids p1 ∖ ids p2),
          []).
Proof.
  intros Hcol Hps. split.
  { pose proof (periods_years dd) as Hlink. rewrite Hps in Hlink.
    apply Forall2_cons_inv_r in Hlink as (y1 & ys & Hy1 & Hlink & Hkeys).
    apply Forall2_cons_inv_r in Hlink as (y2 & ys' & Hy2 & Hlink & ->).
    apply Forall2_nil_inv_r in Hlink as ->.
    exists y1, y2. split; [done|].
    pose proof (sorted_keys_ascending dd) as Hsorted. rewrite Hkeys in Hsorted.
    apply StronglySorted_inv in Hsorted as [_ Hall].
    apply Forall_cons in Hall as [Hlt _].
    split; [done|]. split; [done|]. split; [done|].
    intros y. rewrite <- elem_of_sorted_keys, Hkeys, !elem_of_cons, elem_of_nil.
    naive_solver. }
  rewrite (compare_records_Ok dd Hcol), Hps.
  assert (Hp1 : CHIPSET_SP ∈ columns p1).
  { assert (p1 ∈ periods dd) as [y Hy]%elem_of_periods by (rewrite Hps; left).
    by eapply Hcol. }
  assert (Hadded : added_pass ∅ [p1; p2]
            = (row_to_record (columns p1)
                 <$> filter (λ row, is_Some (cell_of CHIPSET_SP row)) (rows p1))
              ++ select p2 (ids p2 ∖ ids p1)).
  { cbn [added_pass]. rewrite select_all_ids, (right_id_L [] (++)).
    by rewrite (left_id_L ∅ (∪)). }
  assert (Hcands : removed_candidates [p1; p2] = select p1 (ids p1 ∖ ids p2)).
  { unfold removed_candidates. cbn [length Nat.sub seq].
    rewrite bind_cons. change ([] ≫= removed_chunk [p1; p2]) with (@nil record).
    rewrite (right_id_L [] (++)).
    unfold removed_chunk, removed_ids, later_union.
    cbn [lookup list_lookup drop Nat.add fmap list_fmap union_list foldr].
    by rewrite (right_id_L ∅ (∪)). }
  assert (Hremoved : removed_final [p1; p2] = select p1 (ids p1 ∖ ids p2)).
  { unfold removed_final. rewrite Hcands.
    apply filter_all, Forall_forall.
    intros r (row & v & Hrow & -> & Hv & Hin)%elem_of_select.
    apply survives_iff. exists v. split.
    - unfold record_id. by rewrite record_lookup_row, Hv.
    - split; [apply not_elem_of_empty|]. cbn [first_ids]. set_solver. }
  by rewrite Hadded, Hremoved.
Qed.

Lemma two_period_difference_witness :
  ∃ dd p1 p2,
    has_identifier_column dd ∧ periods dd = [p1; p2]
    ∧ compare_records dd
      = Ok ([mk_record (Some (Str "a")) "c1"; mk_record (Some (Str "b")) "c2";
             mk_record (Some (Str "c")) "c3"],
            [mk_record (Some (Str "a")) "c1"], []).
Proof.
  exists {[ "2021" := mk_frame [mk_row (Some (Str "a")) "c1"; mk_row (Some (Str "b")) "c2"];
            "2022" := mk_frame [mk_row (Some (Str "b")) "c2"; mk_row (Some (Str "c")) "c3"] ]},
    (mk_frame [mk_row (Some (Str "a")) "c1"; mk_row (Some (Str "b")) "c2"]),
    (mk_frame [mk_row (Some (Str "b")) "c2"; mk_row (Some (Str "c")) "c3"]).
  assert (Hcol : has_identifier_column
    {[ "2021" := mk_frame [mk_row (Some (Str "a")) "c1"; mk_row (Some (Str "b")) "c2"];
       "2022" := mk_frame [mk_row (Some (Str "b")) "c2"; mk_row (Some (Str "c")) "c3"] ]})
    by (apply (bool_decide_unpack _); vm_compute; exact I).
  split; [exact Hcol|].
  split; [vm_compute; reflexivity|].
  destruct (two_period_difference _ _ _ Hcol eq_refl) as [_ ->].
  vm_compute. reflexivity.
Defined.

(** X19: in one period no identifier is both newly Added and Reappeared:
    the identifiers Reappeared at period [i] were present two periods
    before, so they are in [S_i] but not among those Added at period [i];
    they are also absent from the period in between. *)
Theorem reappeared_not_added_same_period (dd : gmap string DataFrame) :
  has_identifier_column dd →
  let ps := periods dd in
  ∃ added_ids removed,
    compare_records dd
    = Ok (mjoin (imap (λ i p, select p (added_ids i p)) ps), removed,
          seq 2 (length ps - 2) ≫= λ i,
            match ps !! i with
            | Some curr => select curr (reappeared_ids ps i)
            | None => []
            end)
    ∧ (∀ i p, added_ids i p = ids p ∖ (∅ ∪ ⋃ (ids <$> take i ps)))
    ∧ ∀ (i : nat) prev curr v,
        (2 ≤ i)%nat → ps !! (i - 1)%nat = Some prev → ps !! i = Some curr →
        v ∈ reappeared_ids ps i →
        v ∈ ids curr ∧ (v ∉ ids prev) ∧ v ∉ added_ids i curr.
Proof.
  intros Hcol ps.
  exists (λ i p, ids p ∖ (∅ ∪ ⋃ (ids <$> take i ps))), (removed_final ps).
  split.
  { rewrite (compare_records_Ok dd Hcol). fold ps. by rewrite added_pass_index. }
  split; [done|].
  intros i prev curr v Hi Hprev Hcurr Hv.
  destruct (lookup_lt_is_Some_2 ps (i - 2)) as [older Holder].
  { apply lookup_lt_Some in Hcurr. lia. }
  destruct (reappeared_ids_window ps i older prev curr Hi Holder Hprev Hcurr) as [Heq _].
  rewrite Heq in Hv. apply elem_of_intersection in Hv as [Hv Hc].
  apply elem_of_difference in Hv as [Ho Hp].
  split; [done|]. split; [done|].
  rewrite elem_of_difference, elem_of_seen_before. intros [_ Hnot]. apply Hnot.
  exists (i - 2)%nat, older. split; [lia|done].
Qed.

Lemma reappeared_not_added_same_period_witness :
  has_identifier_column sample3
  ∧ ∃ added removed reappeared,
      compare_records sample3 = Ok (added, removed, reappeared)
      ∧ reappeared = [mk_record (Some (Str "a")) "c1"].
Proof.
  assert (Hcol : has_identifier_column sample3)
    by (apply (bool_decide_unpack _); vm_compute; exact I).
  split; [exact Hcol|].
  destruct (reappeared_not_added_same_period sample3 Hcol) as (f & r & Hrec & _).
  do 3 eexists. split; [exact Hrec|]. vm_compute. reflexivity.
Defined.

(** X20: the year list is the keys of the mapping in strictly ascending
    order of Python's string comparison, each key once; it is the only such
    list, so it does not depend on the order of insertion. *)
Theorem sorted_keys_characterised (V : Type) (m : gmap string V) :
  StronglySorted (strict String.le) (sorted_keys m)
  ∧ NoDup (sorted_keys m)
  ∧ (∀ y, y ∈ sorted_keys m ↔ is_Some (m !! y))
  ∧ length (sorted_keys m) = size m
  ∧ (∀ a b : string, String.le a b ↔ String.leb a b = true)
  ∧ ∀ l, StronglySorted String.le l → NoDup l →
         (∀ y, y ∈ l ↔ is_Some (m !! y)) → l = sorted_keys m.
Proof.
  split; [apply sorted_keys_ascending|].
  split; [apply NoDup_sorted_keys|].
  split; [apply elem_of_sorted_keys|].
  split; [apply length_sorted_keys|].
  split; [intros a b; unfold String.le; apply Is_true_true|].
  intros l. apply sorted_keys_unique.
Qed.
